(** * better-next-api: the request pipeline of [ApiBuilder]

    A shallow embedding of [src/api-builder.ts] and [src/api-error.ts].

    - JavaScript values are an inductive type [JsVal]; an instance of
      [ApiError] and an instance of [NextResponse] are constructors of their
      own, since the code tests for them with [instanceof].
    - Every awaited call into code the builder does not own (a schema's
      [safeParseAsync], [req.json()], the route parameters promise, a
      middleware, the handler, the failure hook) is a computation over an
      abstract world [W] that either returns or throws a [JsVal].
    - The pipeline itself runs in a state-and-exception monad [M] whose state
      is the world together with a trace: the list of calls the pipeline made
      to middleware, handler, failure hook and [console.error], in order.
    - The cumulative context is an object that the pipeline hands to each
      middleware and reads again once the call has settled, so a middleware
      settles with what it returned and with the contents it left in that
      object ([Settled]). The validated [context], [query] and [body] are
      handed on by reference and never read by the pipeline; they are values
      of [JsVal], which a callee cannot write into.
    - [NextResponse.json] can throw: on a value without JSON text and on a
      status that no response with a body takes.
    - Builders live in a heap of objects and arrays, so that the claim that a
      configuration call never mutates its receiver is a statement about the
      heap and not a triviality of a functional record. *)

From Stdlib Require Import ZArith.
From stdpp Require Import gmap strings list fin_maps.

Local Open Scope Z_scope.
Local Open Scope string_scope.
Local Open Scope list_scope.
Local Set Warnings "-register-all".

(** ** JavaScript values *)

Inductive JsVal : Type :=
| VUndefined
| VNull
| VBool (b : bool)
| VNum (n : Z)
| VStr (s : string)
| VArr (items : list JsVal)
(** a plain object (or an instance of any class the pipeline never tests for) *)
| VObj (props : list (string * JsVal))
(** an instance of [ApiError]: its declared fields [code], [type], [message],
    [issues], and whatever further properties were put on the object *)
| VApiError (code : Z) (type : string) (message : string)
            (issues : option (list JsVal)) (extra : list (string * JsVal))
(** an instance of [NextResponse]: its status and the value it carries *)
| VNextResponse (status : Z) (payload : JsVal).

(** Property lookup in an object literal. *)
Fixpoint prop_lookup (k : string) (ps : list (string * JsVal)) : option JsVal :=
  match ps with
  | [] => None
  | (k', v) :: rest => if String.eqb k k' then Some v else prop_lookup k rest
  end.

(** [obj[k] = v]: overwrite in place when the key exists, append otherwise. *)
Fixpoint prop_set (k : string) (v : JsVal) (ps : list (string * JsVal))
  : list (string * JsVal) :=
  match ps with
  | [] => [(k, v)]
  | (k', v') :: rest =>
      if String.eqb k k' then (k, v) :: rest else (k', v') :: prop_set k v rest
  end.

(** [Object.fromEntries(req.nextUrl.searchParams.entries())]: a flat object of
    strings; a repeated key keeps its last value. *)
Definition fromEntries (entries : list (string * string)) : JsVal :=
  VObj (fold_left (fun acc e => prop_set (fst e) (VStr (snd e)) acc) entries []).

(** [undefined] rendered for an optional array. *)
Definition opt_array (o : option (list JsVal)) : JsVal :=
  match o with
  | None => VUndefined
  | Some l => VArr l
  end.

(** [typeof v === "object"] (which [null] satisfies). *)
Definition typeof_object (v : JsVal) : bool :=
  match v with
  | VNull | VArr _ | VObj _ | VApiError _ _ _ _ _ | VNextResponse _ _ => true
  | VUndefined | VBool _ | VNum _ | VStr _ => false
  end.

(** The properties of an object the pipeline can read by name. *)
Definition props_of (v : JsVal) : list (string * JsVal) :=
  match v with
  | VObj ps => ps
  | VApiError code type message issues extra =>
      [("message", VStr message); ("code", VNum code); ("type", VStr type);
       ("issues", opt_array issues)] ++ extra
  | _ => []
  end.

(** [k in v] and [v[k]]. *)
Definition get_prop (v : JsVal) (k : string) : option JsVal :=
  prop_lookup k (props_of v).

Definition prop_in (k : string) (v : JsVal) : bool :=
  match get_prop v k with
  | Some _ => true
  | None => false
  end.

Definition is_null (v : JsVal) : bool :=
  match v with
  | VNull => true
  | _ => false
  end.

(** [digest.startsWith(p)] *)
Definition startsWith (p s : string) : bool := String.prefix p s.

(** api-builder.ts, lines 69-78. *)
Definition isNextJsInternalError (error : JsVal) : bool :=
  if negb (typeof_object error) || is_null error || negb (prop_in "digest" error)
  then false
  else
    match get_prop error "digest" with
    | Some (VStr digest) => startsWith "NEXT_" digest
    | _ => false
    end.

(** [error instanceof ApiError] *)
Definition instanceof_ApiError (v : JsVal) : bool :=
  match v with
  | VApiError _ _ _ _ _ => true
  | _ => false
  end.

(** [result instanceof NextResponse] *)
Definition instanceof_NextResponse (v : JsVal) : bool :=
  match v with
  | VNextResponse _ _ => true
  | _ => false
  end.

(** ** ApiError (api-error.ts) *)

Record ApiErrorProps := {
  code : option Z;
  type : option string;
  message : string;
  issues : option (list JsVal)
}.

(** [new ApiError(props)], lines 43-49: [code ?? 500],
    [type ?? "INTERNAL_SERVER_ERROR"]. *)
Definition new_ApiError (props : ApiErrorProps) : JsVal :=
  VApiError (default 500 (code props))
            (default "INTERNAL_SERVER_ERROR" (type props))
            (message props)
            (issues props)
            [].

(** ** Outcomes of awaited calls *)

Inductive Outcome (A : Type) : Type :=
| Returned (a : A)
| Thrown (e : JsVal).
Arguments Returned {A} a.
Arguments Thrown {A} e.

(** *** [NextResponse.json]

    [NextResponse.json(body, { status })] is [Response.json] of the platform:
    it encodes [body] as JSON, checks the status and builds the response. It
    throws a [TypeError] when [body] has no JSON text, a [RangeError] when the
    status is outside 200..599, and a [TypeError] when the status is one that
    allows no body. *)

(** The errors the platform throws; only their [name] is modelled. *)
Definition type_error : JsVal := VObj [("name", VStr "TypeError")].
Definition range_error : JsVal := VObj [("name", VStr "RangeError")].

(** [JSON.stringify(v)] is a string. Of the values of [JsVal] only
    [undefined] has no JSON text: inside an array it is written [null] and
    inside an object its property is left out. Values on which
    [JSON.stringify] throws (a BigInt, a cyclic object) are not among the
    values modelled. *)
Definition json_encodable (v : JsVal) : bool :=
  match v with
  | VUndefined => false
  | _ => true
  end.

(** The status of a [ResponseInit] is an [unsigned short]: the number given
    is taken modulo 2^16 before it is checked. *)
Definition to_status (n : Z) : Z := n mod 65536.

(** The statuses in 200..599 that allow no body. *)
Definition null_body_status (status : Z) : bool :=
  (status =? 204)%Z || (status =? 205)%Z || (status =? 304)%Z.

Definition NextResponse_json (body : JsVal) (status : Z) : Outcome JsVal :=
  if negb (json_encodable body) then Thrown type_error
  else if negb ((200 <=? to_status status)%Z && (to_status status <=? 599)%Z)
  then Thrown range_error
  else if null_body_status (to_status status) then Thrown type_error
  else Returned (VNextResponse (to_status status) body).

(** A status code that [NextResponse.json] takes as it is. *)
Definition valid_status (code : Z) : bool :=
  (200 <=? code)%Z && (code <=? 599)%Z && negb (null_body_status code).

(** What a middleware call leaves behind when it returns: the partial context
    it returned, and the contents of the [ctx] object it was handed. The
    pipeline hands the accumulator object itself to the step (line 278) and
    reads it again after the call (line 279), so what the step wrote to it
    or deleted from it counts. *)
Record Settled := {
  returned : gmap string JsVal;
  ctx_after : gmap string JsVal
}.

Inductive Method := GET | POST | PUT | PATCH | DELETE.

#[global] Instance Method_eq_dec : EqDecision Method.
Proof. solve_decision. Defined.

(** [schema.safeParseAsync(data)] resolves to one of these. *)
Inductive SafeParseResult :=
| ParseSuccess (data : JsVal)
| ParseError (issues : list JsVal).

Section Runtime.

(** The world that the code outside the builder reads and writes. *)
Context {W : Type}.

(** An awaited call into code the builder does not own. *)
Definition Ext (A : Type) : Type := W -> Outcome A * W.

(** A Zod schema, as far as the builder uses one. Zod does not catch what a
    refinement or transform throws, so the call may throw. *)
Record ZodSchema := { safeParseAsync : JsVal -> Ext SafeParseResult }.

(** [NextRequest], as far as the builder uses one. *)
Record NextRequest := {
  searchParams : list (string * string);
  json : Ext JsVal
}.

(** The second argument of a route handler: [{ params: Promise<unknown> }]. *)
Record RouteCtx := { params : Ext JsVal }.

(** [HandlerInput], lines 32-61. *)
Record HandlerInput := {
  context : JsVal;
  query : JsVal;
  body : JsVal;
  ctx : gmap string JsVal;
  req : NextRequest
}.

(** The fields of the input a call received. *)
Definition input_context (input : HandlerInput) : JsVal := context input.
Definition input_query (input : HandlerInput) : JsVal := query input.
Definition input_body (input : HandlerInput) : JsVal := body input.

Definition Middleware : Type := HandlerInput -> Ext Settled.
Definition Handler : Type := HandlerInput -> Ext JsVal.
(** [FailureHandler], lines 24-27: called with [{ req, error }]. *)
Definition FailureHandler : Type := NextRequest -> JsVal -> Ext unit.

(** What the pipeline did to the outside, in order. *)
Inductive Event :=
| EvMiddleware (i : nat) (input : HandlerInput) (out : Outcome Settled)
| EvHandler (input : HandlerInput) (out : Outcome JsVal)
| EvFailureHandler (r : NextRequest) (error : JsVal) (out : Outcome unit)
| EvConsoleError (label : string) (v : JsVal).

Record State := { world : W; trace : list Event }.

(** The pipeline's monad: state and exceptions. *)
Definition M (A : Type) : Type := State -> Outcome A * State.

Definition ret {A} (a : A) : M A := fun st => (Returned a, st).

Definition throw {A} (e : JsVal) : M A := fun st => (Thrown e, st).

(** The outcome of a call that touches nothing outside. *)
Definition settle {A} (out : Outcome A) : M A := fun st => (out, st).

Definition bind {A B} (m : M A) (k : A -> M B) : M B :=
  fun st =>
    match m st with
    | (Returned a, st') => k a st'
    | (Thrown e, st') => (Thrown e, st')
    end.

(** [try { m } catch (e) { h e }] *)
Definition try_catch {A} (m : M A) (h : JsVal -> M A) : M A :=
  fun st =>
    match m st with
    | (Returned a, st') => (Returned a, st')
    | (Thrown e, st') => h e st'
    end.

(** [await] of an outside call that the trace does not record. *)
Definition await {A} (c : Ext A) : M A :=
  fun st =>
    let (out, w) := c (world st) in
    (out, {| world := w; trace := trace st |}).

(** An outside call that the trace records once it has settled. *)
Definition await_logged {A} (c : Ext A) (ev : Outcome A -> Event) : M A :=
  fun st =>
    let (out, w) := c (world st) in
    (out, {| world := w; trace := trace st ++ [ev out] |}).

Definition console_error (label : string) (v : JsVal) : M unit :=
  fun st => (Returned tt, {| world := world st; trace := trace st ++ [EvConsoleError label v] |}).

End Runtime.

Arguments ZodSchema W : clear implicits.
Arguments NextRequest W : clear implicits.
Arguments RouteCtx W : clear implicits.
Arguments HandlerInput W : clear implicits.
Arguments Middleware W : clear implicits.
Arguments Handler W : clear implicits.
Arguments FailureHandler W : clear implicits.
Arguments Event W : clear implicits.
Arguments State W : clear implicits.
Arguments M W A : clear implicits.
Arguments Ext W A : clear implicits.
Arguments input_context {W} input.
Arguments input_query {W} input.
Arguments input_body {W} input.

Notation "x <- m ;; k" := (bind m (fun x => k))
  (at level 100, m at next level, right associativity).
Notation "m ;;; k" := (bind m (fun _ => k))
  (at level 100, right associativity).

(** ** The builder (api-builder.ts, class [ApiBuilder]) *)

Module ApiBuilder.

(** The five private fields, lines 89-95. [A] is how the middleware array is
    held: a reference into the heap in a stored object, its contents once a
    request reads [this.middlewares]. *)
Record Fields (W A : Type) := {
  contextSchema : option (ZodSchema W);
  querySchema : option (ZodSchema W);
  bodySchema : option (ZodSchema W);
  middlewares : A;
  failureHandler : option (FailureHandler W)
}.
Arguments contextSchema {W A} _.
Arguments querySchema {W A} _.
Arguments bodySchema {W A} _.
Arguments middlewares {W A} _.
Arguments failureHandler {W A} _.

(** [inputBase], lines 268-273: the handler input before [ctx] is added. *)
Record InputBase (W : Type) := {
  base_context : JsVal;
  base_query : JsVal;
  base_body : JsVal;
  base_req : NextRequest W
}.
Arguments base_context {W} _.
Arguments base_query {W} _.
Arguments base_body {W} _.
Arguments base_req {W} _.

Section Pipeline.

Context {W : Type}.

(** [this], as a request reads it. *)
Abbreviation This := (Fields W (list (Middleware W))).

(** [{ ...inputBase, ctx }] *)
Definition with_ctx (inputBase : InputBase W) (c : gmap string JsVal) : HandlerInput W :=
  {| context := base_context inputBase;
     query := base_query inputBase;
     body := base_body inputBase;
     ctx := c;
     req := base_req inputBase |}.

(** [validate], lines 331-345. *)
Definition validate (schema : option (ZodSchema W)) (data : JsVal) : M W JsVal :=
  match schema with
  | None =>
      ret (match data with
           | VUndefined => VUndefined
           | _ => data
           end)
  | Some s =>
      result <- await (safeParseAsync s data);;
      match result with
      | ParseError issues =>
          throw (new_ApiError {| code := Some 400;
                                 type := Some "VALIDATION_ERROR";
                                 message := "Invalid input.";
                                 issues := Some issues |})
      | ParseSuccess data' => ret data'
      end
  end.

(** Lines 252-266: [validatedBody] starts out undefined; the [try] covers both
    [req.json()] and the validation of what it parsed. *)
Definition validate_body (this : This) (method : Method) (request : NextRequest W)
  : M W JsVal :=
  if bool_decide (method ∈ [POST; PUT; PATCH]) then
    try_catch
      (parsed <- await (json request);;
       validate (bodySchema this) parsed)
      (fun e =>
         match bodySchema this with
         | Some _ =>
             throw (new_ApiError {| code := Some 400;
                                    type := Some "INVALID_BODY";
                                    message := "Invalid JSON body provided.";
                                    issues := None |})
         | None => ret VUndefined
         end)
  else ret VUndefined.

(** Lines 243-250: the route parameters and the query string. *)
Definition validate_context_query (this : This) (request : NextRequest W)
    (routeCtx : RouteCtx W) : M W (JsVal * JsVal) :=
  raw <- await (params routeCtx);;
  validatedContext <- validate (contextSchema this) raw;;
  validatedQuery <- validate (querySchema this) (fromEntries (searchParams request));;
  ret (validatedContext, validatedQuery).

(** Lines 243-273: the three validations, in order, and [inputBase]. *)
Definition validation (this : This) (method : Method) (request : NextRequest W)
    (routeCtx : RouteCtx W) : M W (InputBase W) :=
  validated <- validate_context_query this request routeCtx;;
  validatedBody <- validate_body this method request;;
  ret {| base_context := fst validated;
         base_query := snd validated;
         base_body := validatedBody;
         base_req := request |}.

(** Lines 276-280: the loop over [this.middlewares]; [i] is the position of
    the next step, [cumulativeCtx] the contents of the accumulator object.
    The step is handed that object; when it returns, [settled] holds its
    result [newCtx] and the contents of the object as the step left it, and
    [{ ...cumulativeCtx, ...newCtx }] is the union of the two in which
    [newCtx] wins. *)
Fixpoint run_middlewares (i : nat) (steps : list (Middleware W))
    (inputBase : InputBase W) (cumulativeCtx : gmap string JsVal)
  : M W (gmap string JsVal) :=
  match steps with
  | [] => ret cumulativeCtx
  | middleware :: rest =>
      let input := with_ctx inputBase cumulativeCtx in
      settled <- await_logged (middleware input) (EvMiddleware i input);;
      run_middlewares (S i) rest inputBase (returned settled ∪ ctx_after settled)
  end.

(** Lines 285-292: a [NextResponse] is passed through; anything else goes to
    [NextResponse.json], which may throw. *)
Definition respond (method : Method) (result : JsVal) : Outcome JsVal :=
  if instanceof_NextResponse result then Returned result
  else
    let status := if decide (method = POST) then 201 else 200 in
    NextResponse_json result status.

(** Lines 283-292: the handler call and the encoding of its result. *)
Definition handle (method : Method) (handler : Handler W)
    (inputBase : InputBase W) (cumulativeCtx : gmap string JsVal) : M W JsVal :=
  let input := with_ctx inputBase cumulativeCtx in
  result <- await_logged (handler input) (EvHandler input);;
  settle (respond method result).

(** Lines 241-292: the body of the outer [try]. *)
Definition try_block (this : This) (method : Method) (handler : Handler W)
    (request : NextRequest W) (routeCtx : RouteCtx W) : M W JsVal :=
  inputBase <- validation this method request routeCtx;;
  cumulativeCtx <- run_middlewares 0 (middlewares this) inputBase ∅;;
  handle method handler inputBase cumulativeCtx.

(** The body of the 500 response, lines 318-321. *)
Definition internal_error_body : JsVal :=
  VObj [("message", VStr "An internal server error occurred.");
        ("type", VStr "INTERNAL_SERVER_ERROR")].

(** Lines 306-313: the failure hook, its own errors caught and logged. *)
Definition run_failureHandler (this : This) (request : NextRequest W) (error : JsVal)
  : M W unit :=
  match failureHandler this with
  | Some hook =>
      try_catch
        (await_logged (hook request error) (EvFailureHandler request error))
        (fun loggingError => console_error "Error within .failed() handler:" loggingError)
  | None => ret tt
  end.

(** Lines 293-324: the outer [catch]. *)
Definition catch_block (this : This) (request : NextRequest W) (error : JsVal)
  : M W JsVal :=
  if isNextJsInternalError error then throw error
  else
    match error with
    | VApiError code type message issues _ =>
        settle (NextResponse_json
                  (VObj [("message", VStr message); ("type", VStr type);
                         ("issues", opt_array issues)])
                  code)
    | _ =>
        run_failureHandler this request error;;;
        console_error "Unhandled API error:" error;;;
        settle (NextResponse_json internal_error_body 500)
    end.

(** [createRouteHandler], lines 230-326: the route handler for one method. *)
Definition createRouteHandler (this : This) (method : Method) (handler : Handler W)
  : NextRequest W -> RouteCtx W -> M W JsVal :=
  fun request routeCtx =>
    try_catch (try_block this method handler request routeCtx)
              (catch_block this request).

(** Lines 173-223. *)
Definition get (this : This) (handler : Handler W) := createRouteHandler this GET handler.
Definition post (this : This) (handler : Handler W) := createRouteHandler this POST handler.
Definition put (this : This) (handler : Handler W) := createRouteHandler this PUT handler.
Definition patch (this : This) (handler : Handler W) := createRouteHandler this PATCH handler.
Definition delete (this : This) (handler : Handler W) := createRouteHandler this DELETE handler.

End Pipeline.

(** *** Builders as heap objects

    An [ApiBuilder] instance is an object in a heap, and its [middlewares]
    field refers to an array that is a heap object too: the spread
    [{ ...this, contextSchema: schema }] copies that reference, so a builder
    and the builders derived from it can share one array. *)

Definition loc := positive.

Record Heap (W : Type) := {
  objects : gmap loc (Fields W loc);
  arrays : gmap loc (list (Middleware W))
}.
Arguments objects {W} _.
Arguments arrays {W} _.

Section Configuration.

Context {W : Type}.

(** [new ApiBuilder(config)], lines 97-109: a fresh object holding the five
    fields of [config]. *)
Definition new_ApiBuilder (config : Fields W loc) (h : Heap W) : loc * Heap W :=
  let l := fresh (dom (objects h)) in
  (l, {| objects := <[l := config]> (objects h); arrays := arrays h |}).

(** An array literal: a fresh array holding [items]. *)
Definition new_array (items : list (Middleware W)) (h : Heap W) : loc * Heap W :=
  let l := fresh (dom (arrays h)) in
  (l, {| objects := objects h; arrays := <[l := items]> (arrays h) |}).

(** [createApiHandler], lines 351-359. *)
Definition createApiHandler (h : Heap W) : loc * Heap W :=
  let (arr, h') := new_array [] h in
  new_ApiBuilder {| contextSchema := None;
                    querySchema := None;
                    bodySchema := None;
                    middlewares := arr;
                    failureHandler := None |} h'.

(** The fields of [this] as a request of a route handler reads them; [None]
    when [this] is no builder of the heap. *)
Definition read_this (h : Heap W) (this : loc)
  : option (Fields W (list (Middleware W))) :=
  o ← objects h !! this;
  steps ← arrays h !! middlewares o;
  Some {| contextSchema := contextSchema o;
          querySchema := querySchema o;
          bodySchema := bodySchema o;
          middlewares := steps;
          failureHandler := failureHandler o |}.

(** The function returned by [this.createRouteHandler(method, handler)],
    called in heap [h]: the arrow function reads the fields of [this] when a
    request arrives. *)
Definition route_handler (h : Heap W) (this : loc) (method : Method)
    (handler : Handler W) : option (NextRequest W -> RouteCtx W -> M W JsVal) :=
  fields ← read_this h this;
  Some (createRouteHandler fields method handler).

(** [context], lines 114-118. *)
Definition context (this : loc) (schema : ZodSchema W) (h : Heap W)
  : option (loc * Heap W) :=
  o ← objects h !! this;
  Some (new_ApiBuilder {| contextSchema := Some schema;
                          querySchema := querySchema o;
                          bodySchema := bodySchema o;
                          middlewares := middlewares o;
                          failureHandler := failureHandler o |} h).

(** [query], lines 123-127. *)
Definition query (this : loc) (schema : ZodSchema W) (h : Heap W)
  : option (loc * Heap W) :=
  o ← objects h !! this;
  Some (new_ApiBuilder {| contextSchema := contextSchema o;
                          querySchema := Some schema;
                          bodySchema := bodySchema o;
                          middlewares := middlewares o;
                          failureHandler := failureHandler o |} h).

(** [body], lines 132-136. *)
Definition body (this : loc) (schema : ZodSchema W) (h : Heap W)
  : option (loc * Heap W) :=
  o ← objects h !! this;
  Some (new_ApiBuilder {| contextSchema := contextSchema o;
                          querySchema := querySchema o;
                          bodySchema := Some schema;
                          middlewares := middlewares o;
                          failureHandler := failureHandler o |} h).

(** [use], lines 142-156: [[...this.middlewares, middleware]] is a new array. *)
Definition use (this : loc) (middleware : Middleware W) (h : Heap W)
  : option (loc * Heap W) :=
  o ← objects h !! this;
  steps ← arrays h !! middlewares o;
  let (arr, h') := new_array (steps ++ [middleware]) h in
  Some (new_ApiBuilder {| contextSchema := contextSchema o;
                          querySchema := querySchema o;
                          bodySchema := bodySchema o;
                          middlewares := arr;
                          failureHandler := failureHandler o |} h').

(** [failed], lines 162-166. *)
Definition failed (this : loc) (handler : FailureHandler W) (h : Heap W)
  : option (loc * Heap W) :=
  o ← objects h !! this;
  Some (new_ApiBuilder {| contextSchema := contextSchema o;
                          querySchema := querySchema o;
                          bodySchema := bodySchema o;
                          middlewares := middlewares o;
                          failureHandler := Some handler |} h).

End Configuration.

End ApiBuilder.

Import ApiBuilder.

(** ** Notions the statements use *)

(** Middleware and handler calls, as opposed to what the outer [catch] does. *)
Definition is_step {W} (ev : Event W) : bool :=
  match ev with
  | EvMiddleware _ _ _ | EvHandler _ _ => true
  | EvFailureHandler _ _ _ | EvConsoleError _ _ => false
  end.

(** A call of the failure hook. *)
Definition is_hook {W} (ev : Event W) : bool :=
  match ev with
  | EvFailureHandler _ _ _ => true
  | _ => false
  end.

(** A call of the handler. *)
Definition is_handler {W} (ev : Event W) : bool :=
  match ev with
  | EvHandler _ _ => true
  | _ => false
  end.

(** The left-to-right shallow merge of a list of partial contexts onto [c0]:
    each one is spread over what came before it. *)
Definition merge_onto (c0 : gmap string JsVal) (outs : list (gmap string JsVal))
  : gmap string JsVal :=
  foldl (fun acc o => o ∪ acc) c0 outs.

Definition merge_ltr (outs : list (gmap string JsVal)) : gmap string JsVal :=
  merge_onto ∅ outs.

(** Later keys win: [c] maps [k] to [v] exactly when some output does and no
    later output has the key. *)
Definition LaterWins (outs : list (gmap string JsVal)) (c : gmap string JsVal) : Prop :=
  forall (k : string) (v : JsVal),
    c !! k = Some v <->
    exists (j : nat) (o : gmap string JsVal),
      outs !! j = Some o /\ o !! k = Some v /\
      forall (j' : nat) (o' : gmap string JsVal),
        (j < j')%nat -> outs !! j' = Some o' -> o' !! k = None.

(** The contents of the accumulator after the steps that returned [rs], from
    the contents [c0]: what the last of them returned, spread over the object
    as that step left it. *)
Definition accumulated (c0 : gmap string JsVal) (rs : list Settled)
  : gmap string JsVal :=
  foldl (fun _ r => returned r ∪ ctx_after r) c0 rs.

(** The trace of the steps that returned [rs], from position [i] with the
    accumulator [c0]. *)
Definition step_events {W} (i : nat) (inputBase : InputBase W)
    (c0 : gmap string JsVal) (rs : list Settled) : list (Event W) :=
  imap (fun j r =>
          EvMiddleware (i + j) (with_ctx inputBase (accumulated c0 (take j rs)))
                       (Returned r))
       rs.

(** The steps that completed: step [j] is the [j]-th of the list, it starts
    in the world that step [j-1] left ([ws !! j]), on the accumulator as the
    steps before it left it, and it returned [rs !! j]. *)
Definition steps_completed {W} (steps : list (Middleware W)) (inputBase : InputBase W)
    (c0 : gmap string JsVal) (rs : list Settled) (ws : list W) : Prop :=
  length ws = S (length rs) /\
  forall (j : nat) (r : Settled),
    rs !! j = Some r ->
    exists (m : Middleware W) (w w' : W),
      steps !! j = Some m /\ ws !! j = Some w /\ ws !! S j = Some w' /\
      m (with_ctx inputBase (accumulated c0 (take j rs))) w = (Returned r, w').

(** A middleware that does not write to the [ctx] object it is handed: when
    it returns, the object holds what it held. *)
Definition steady {W} (m : Middleware W) : Prop :=
  forall (input : HandlerInput W) (w w' : W) (r : Settled),
    m input w = (Returned r, w') -> ctx_after r = ctx input.

(** The input a middleware or handler call was made with. *)
Definition event_input {W} (ev : Event W) : option (HandlerInput W) :=
  match ev with
  | EvMiddleware _ input _ | EvHandler input _ => Some input
  | EvFailureHandler _ _ _ | EvConsoleError _ _ => None
  end.

(** The calls of the failure hook among [evs]. *)
Definition hook_calls {W} (evs : list (Event W)) : list (Event W) :=
  List.filter is_hook evs.

(** The five configuration calls. *)
Inductive ConfigCall (W : Type) :=
| CallContext (schema : ZodSchema W)
| CallQuery (schema : ZodSchema W)
| CallBody (schema : ZodSchema W)
| CallUse (middleware : Middleware W)
| CallFailed (handler : FailureHandler W).
Arguments CallContext {W} schema.
Arguments CallQuery {W} schema.
Arguments CallBody {W} schema.
Arguments CallUse {W} middleware.
Arguments CallFailed {W} handler.

(** [this.context(schema)], ..., [this.failed(handler)] in heap [h]. *)
Definition call {W} (c : ConfigCall W) (this : loc) (h : Heap W) : option (loc * Heap W) :=
  match c with
  | CallContext schema => ApiBuilder.context this schema h
  | CallQuery schema => ApiBuilder.query this schema h
  | CallBody schema => ApiBuilder.body this schema h
  | CallUse middleware => ApiBuilder.use this middleware h
  | CallFailed handler => ApiBuilder.failed this handler h
  end.

(** What the claim says the new builder holds: the fields of the receiver
    with the one field of the call changed. *)
Definition changed {W} (c : ConfigCall W) (f : Fields W (list (Middleware W)))
  : Fields W (list (Middleware W)) :=
  match c with
  | CallContext schema =>
      {| contextSchema := Some schema; querySchema := querySchema f;
         bodySchema := bodySchema f; middlewares := middlewares f;
         failureHandler := failureHandler f |}
  | CallQuery schema =>
      {| contextSchema := contextSchema f; querySchema := Some schema;
         bodySchema := bodySchema f; middlewares := middlewares f;
         failureHandler := failureHandler f |}
  | CallBody schema =>
      {| contextSchema := contextSchema f; querySchema := querySchema f;
         bodySchema := Some schema; middlewares := middlewares f;
         failureHandler := failureHandler f |}
  | CallUse middleware =>
      {| contextSchema := contextSchema f; querySchema := querySchema f;
         bodySchema := bodySchema f; middlewares := middlewares f ++ [middleware];
         failureHandler := failureHandler f |}
  | CallFailed handler =>
      {| contextSchema := contextSchema f; querySchema := querySchema f;
         bodySchema := bodySchema f; middlewares := middlewares f;
         failureHandler := Some handler |}
  end.

(** An error that is neither a platform signal nor an [ApiError]. *)
Definition unclassified (e : JsVal) : bool :=
  negb (isNextJsInternalError e) && negb (instanceof_ApiError e).

(** The response of the outer [catch] to an [ApiError]. *)
Definition api_error_response (code : Z) (type message : string)
    (issues : option (list JsVal)) : JsVal :=
  VNextResponse code
    (VObj [("message", VStr message); ("type", VStr type);
           ("issues", opt_array issues)]).

(** The response to an unclassified error. *)
Definition internal_error_response : JsVal :=
  VNextResponse 500 internal_error_body.

(** ** Further notions *)

(** The value of the last entry of [entries] whose name is [k]. *)
Fixpoint last_value (k : string) (entries : list (string * string)) : option string :=
  match entries with
  | [] => None
  | (k', v) :: rest =>
      match last_value k rest with
      | Some v' => Some v'
      | None => if String.eqb k k' then Some v else None
      end
  end.

(** A call of [console.error]. *)
Definition is_console {W} (ev : Event W) : bool :=
  match ev with
  | EvConsoleError _ _ => true
  | _ => false
  end.

(** [this.c1(...).c2(...)...]: a chain of configuration calls, each made on
    the builder the one before it returned. *)
Fixpoint chain {W} (cs : list (ConfigCall W)) (this : loc) (h : Heap W)
  : option (loc * Heap W) :=
  match cs with
  | [] => Some (this, h)
  | c :: rest =>
      match call c this h with
      | Some (next, h') => chain rest next h'
      | None => None
      end
  end.

(** The middleware that the [use] calls of a chain passed, in call order. *)
Definition used {W} (cs : list (ConfigCall W)) : list (Middleware W) :=
  omap (fun c => match c with
                 | CallUse middleware => Some middleware
                 | _ => None
                 end) cs.

(** The field a configuration call sets. *)
Inductive FieldName := FContext | FQuery | FBody | FMiddlewares | FFailed.

Definition field_of {W} (c : ConfigCall W) : FieldName :=
  match c with
  | CallContext _ => FContext
  | CallQuery _ => FQuery
  | CallBody _ => FBody
  | CallUse _ => FMiddlewares
  | CallFailed _ => FFailed
  end.

#[global] Instance FieldName_eq_dec : EqDecision FieldName.
Proof. solve_decision. Defined.

(** What the call [c] set is what the builder [g] holds. *)
Definition holds {W} (c : ConfigCall W) (g : Fields W (list (Middleware W))) : Prop :=
  match c with
  | CallContext schema => contextSchema g = Some schema
  | CallQuery schema => querySchema g = Some schema
  | CallBody schema => bodySchema g = Some schema
  | CallUse middleware => exists before, middlewares g = before ++ [middleware]
  | CallFailed hook => failureHandler g = Some hook
  end.

(** A builder with nothing configured, as a request reads it. *)
Definition unconfigured {W} : Fields W (list (Middleware W)) :=
  {| contextSchema := None; querySchema := None; bodySchema := None;
     middlewares := []; failureHandler := None |}.

(** ** A sample application

    Concrete schemas, requests, middleware, handlers and hooks. The world is
    the list of names of the outside code that has run, in order. *)

Module Sample.

Definition World := list string.

(** Outside code called [name] that returns [a], or throws [e]. *)
Definition returns {A} (name : string) (a : A) : Ext World A :=
  fun w => (Returned a, w ++ [name]).
Definition throws {A} (name : string) (e : JsVal) : Ext World A :=
  fun w => (Thrown e, w ++ [name]).

Definition issue : JsVal :=
  VObj [("path", VArr [VStr "title"]); ("message", VStr "Required");
        ("code", VStr "invalid_type")].

(** A [notFound()] signal, a redirecting [ApiError], a plain [Error]. *)
Definition not_found : JsVal :=
  VObj [("message", VStr "NEXT_HTTP_ERROR_FALLBACK;404");
        ("digest", VStr "NEXT_HTTP_ERROR_FALLBACK;404")].
Definition redirecting_api_error : JsVal :=
  VApiError 401 "UNAUTHORIZED" "Sign in first." None
            [("digest", VStr "NEXT_REDIRECT;replace;/login;307;")].
Definition unauthorized : JsVal :=
  VApiError 401 "UNAUTHORIZED" "Not authenticated." None [].
Definition plain_error : JsVal :=
  VObj [("message", VStr "connection refused")].
Definition syntax_error : JsVal :=
  VObj [("name", VStr "SyntaxError"); ("message", VStr "Unexpected end of JSON input")].

(** A schema that accepts anything and wraps it, one that rejects anything,
    one whose refinement calls [notFound()]. *)
Definition accepting (name : string) : ZodSchema World :=
  {| safeParseAsync := fun data => returns name (ParseSuccess (VObj [("parsed", data)])) |}.
Definition rejecting (name : string) : ZodSchema World :=
  {| safeParseAsync := fun _ => returns name (ParseError [issue]) |}.
Definition signalling (name : string) : ZodSchema World :=
  {| safeParseAsync := fun _ => throws name not_found |}.

Definition payload : JsVal := VObj [("name", VStr "Hello")].

Definition request : NextRequest World :=
  {| searchParams := [("page", "1"); ("sort", "asc"); ("page", "2")];
     json := returns "json" payload |}.
Definition request_without_json : NextRequest World :=
  {| searchParams := [];
     json := throws "json" syntax_error |}.

Definition route_params : JsVal := VObj [("id", VStr "42")].
Definition routeCtx : RouteCtx World := {| params := returns "params" route_params |}.

Definition handler : Handler World := fun _ => returns "handler" (VStr "done").
Definition responding_handler : Handler World :=
  fun _ => returns "handler" (VNextResponse 202 (VStr "queued")).
Definition failing_handler (e : JsVal) : Handler World := fun _ => throws "handler" e.
(** A handler that returns nothing. *)
Definition void_handler : Handler World := fun _ => returns "handler" VUndefined.

(** A middleware called [name] that returns [out] and leaves [ctx] alone. *)
Definition step (name : string) (out : gmap string JsVal) : Middleware World :=
  fun input => returns name {| returned := out; ctx_after := ctx input |}.

Definition auth : Middleware World :=
  step "auth" {[ "user" := VStr "ann"; "role" := VStr "guest" ]}.
Definition promote : Middleware World :=
  fun input =>
    match ctx input !! "user" with
    | Some (VStr "ann") => step "promote" {[ "role" := VStr "admin" ]} input
    | _ => step "promote" ∅ input
    end.
(** [delete input.ctx.user; return {}] *)
Definition forgetful : Middleware World :=
  fun input =>
    returns "forgetful" {| returned := ∅; ctx_after := base.delete "user" (ctx input) |}.
Definition blocked : Middleware World := fun _ => throws "blocked" unauthorized.

Definition hook : FailureHandler World := fun _ _ => returns "hook" tt.
Definition failing_hook : FailureHandler World := fun _ _ => throws "hook" plain_error.

(** A builder with nothing configured, as a request reads it. *)
Definition bare : Fields World (list (Middleware World)) :=
  {| contextSchema := None; querySchema := None; bodySchema := None;
     middlewares := []; failureHandler := None |}.

Definition with_body (schema : ZodSchema World) : Fields World (list (Middleware World)) :=
  {| contextSchema := None; querySchema := None; bodySchema := Some schema;
     middlewares := []; failureHandler := None |}.

Definition with_context (schema : ZodSchema World) : Fields World (list (Middleware World)) :=
  {| contextSchema := Some schema; querySchema := None; bodySchema := None;
     middlewares := []; failureHandler := None |}.

Definition with_steps (steps : list (Middleware World))
  : Fields World (list (Middleware World)) :=
  {| contextSchema := None; querySchema := None; bodySchema := None;
     middlewares := steps; failureHandler := None |}.

Definition with_hook (h : FailureHandler World) : Fields World (list (Middleware World)) :=
  {| contextSchema := None; querySchema := None; bodySchema := None;
     middlewares := []; failureHandler := Some h |}.

(** Every schema, two middleware and a hook configured. *)
Definition configured : Fields World (list (Middleware World)) :=
  {| contextSchema := Some (accepting "context");
     querySchema := Some (accepting "query");
     bodySchema := Some (accepting "body");
     middlewares := [auth; promote];
     failureHandler := Some hook |}.

Definition start : State World := {| world := []; trace := [] |}.

(** The query string of [request] as an object. *)
Definition query_object : JsVal := VObj [("page", VStr "2"); ("sort", VStr "asc")].

(** [inputBase] of a GET of [request] with no schema configured. *)
Definition unvalidated_input : InputBase World :=
  {| base_context := route_params;
     base_query := query_object;
     base_body := VUndefined;
     base_req := request |}.

(** [inputBase] of a POST of [request] under [configured]. *)
Definition validated_input : InputBase World :=
  {| base_context := VObj [("parsed", route_params)];
     base_query := VObj [("parsed", query_object)];
     base_body := VObj [("parsed", payload)];
     base_req := request |}.

(** The heap after [createApiHandler()], and the builder it returned. *)
Definition first_heap : Heap World :=
  snd (createApiHandler {| objects := ∅; arrays := ∅ |}).
Definition first_builder : loc :=
  fst (createApiHandler {| objects := ∅; arrays := ∅ |} : loc * Heap World).

(** The query schema rejects what the context schema let through. *)
Definition with_rejecting_query : Fields World (list (Middleware World)) :=
  {| contextSchema := Some (accepting "context");
     querySchema := Some (rejecting "query");
     bodySchema := None;
     middlewares := [auth];
     failureHandler := Some hook |}.

(** [new ApiError({ message: "Out of stock." })]. *)
Definition out_of_stock : ApiErrorProps :=
  {| code := None; type := None; message := "Out of stock."; issues := None |}.

(** [new ApiError({ code: 99, message: "Odd." })]: no HTTP status. *)
Definition odd_code : ApiErrorProps :=
  {| code := Some 99; type := None; message := "Odd."; issues := None |}.

(** An error object whose [digest] is a number. *)
Definition numbered_digest : JsVal := VObj [("digest", VNum 7)].

(** [createApiHandler().use(auth).context(A).failed(hook).use(promote).context(B)] *)
Definition calls : list (ConfigCall World) :=
  [CallUse auth; CallContext (accepting "A"); CallFailed hook;
   CallUse promote; CallContext (accepting "B")].

End Sample.

(** ** Lemmas on the monad and on the stages *)

Section Stages.

Context {W : Type}.
Implicit Types (st : State W) (this : Fields W (list (Middleware W))).

Lemma bind_returned {A B} (m : M W A) (k : A -> M W B) st a st' :
  m st = (Returned a, st') -> bind m k st = k a st'.
Proof. intros H. unfold bind. by rewrite H. Qed.

Lemma bind_thrown {A B} (m : M W A) (k : A -> M W B) st e st' :
  m st = (Thrown e, st') -> bind m k st = (Thrown e, st').
Proof. intros H. unfold bind. by rewrite H. Qed.

Lemma try_catch_returned {A} (m : M W A) h st a st' :
  m st = (Returned a, st') -> try_catch m h st = (Returned a, st').
Proof. intros H. unfold try_catch. by rewrite H. Qed.

Lemma try_catch_thrown {A} (m : M W A) h st e st' :
  m st = (Thrown e, st') -> try_catch m h st = h e st'.
Proof. intros H. unfold try_catch. by rewrite H. Qed.

(** What [bind] returned, it got from its two halves. *)
Lemma bind_inv {A B} (m : M W A) (k : A -> M W B) st out st' :
  bind m k st = (out, st') ->
  (exists a st1, m st = (Returned a, st1) /\ k a st1 = (out, st')) \/
  (exists e, m st = (Thrown e, st') /\ out = Thrown e).
Proof.
  unfold bind. destruct (m st) as [[a|e] st1] eqn:E; intros H.
  - left. eauto.
  - right. inversion H; subst. eauto.
Qed.

Lemma await_inv {A} (c : Ext W A) st out st' :
  await c st = (out, st') ->
  exists w, c (world st) = (out, w) /\ st' = {| world := w; trace := trace st |}.
Proof.
  unfold await. destruct (c (world st)) as [o w] eqn:E. intros H.
  inversion H; subst. eauto.
Qed.

Lemma await_logged_inv {A} (c : Ext W A) ev st out st' :
  await_logged c ev st = (out, st') ->
  exists w, c (world st) = (out, w) /\
            st' = {| world := w; trace := trace st ++ [ev out] |}.
Proof.
  unfold await_logged. destruct (c (world st)) as [o w] eqn:E. intros H.
  inversion H; subst. eauto.
Qed.

(** Without a schema, [validate] hands back what it was given. *)
Lemma validate_no_schema (data : JsVal) st :
  validate None data st = (Returned data, st).
Proof. unfold validate, ret. by destruct data. Qed.

(** Validation calls neither middleware, handler nor hook. *)
Lemma validate_trace schema data st out st' :
  validate schema data st = (out, st') -> trace st' = trace st.
Proof.
  unfold validate. destruct schema as [s|].
  - intros H. apply bind_inv in H as [(r & st1 & H1 & H2)|(e & H1 & _)].
    + apply await_inv in H1 as (w & _ & ->).
      destruct r; inversion H2; subst; done.
    + apply await_inv in H1 as (w & _ & ->). done.
  - intros H. inversion H; subst. done.
Qed.

Lemma validate_body_trace this method request st out st' :
  validate_body this method request st = (out, st') -> trace st' = trace st.
Proof.
  unfold validate_body.
  destruct (bool_decide (method ∈ [POST; PUT; PATCH]));
    [|intros Hrun; inversion Hrun; subst; done].
  unfold try_catch.
  destruct ((parsed <- await (json request);; validate (bodySchema this) parsed) st)
    as [[a|e] st1] eqn:E; intros Hrun.
  - inversion Hrun; subst.
    apply bind_inv in E as [(r & st2 & H1 & H2)|(e & H1 & ?)]; [|done].
    apply await_inv in H1 as (w & _ & ->).
    by apply validate_trace in H2.
  - assert (trace st1 = trace st) as Hst1.
    { apply bind_inv in E as [(r & st2 & H1 & H2)|(e' & H1 & ?)].
      - apply await_inv in H1 as (w & _ & ->). by apply validate_trace in H2.
      - apply await_inv in H1 as (w & _ & ->). done. }
    destruct (bodySchema this); inversion Hrun; subst; done.
Qed.

Lemma validate_context_query_trace this request routeCtx st out st' :
  validate_context_query this request routeCtx st = (out, st') -> trace st' = trace st.
Proof.
  unfold validate_context_query. intros H0.
  apply bind_inv in H0 as [(raw & st1 & H1 & H1')|(e & H1 & _)];
    apply await_inv in H1 as (w & _ & ->); [|done].
  apply bind_inv in H1' as [(vc & st2 & H2 & H2')|(e & H2 & _)];
    apply validate_trace in H2; simpl in H2; [|done].
  apply bind_inv in H2' as [(vq & st3 & H3 & H3')|(e & H3 & _)];
    apply validate_trace in H3; [|congruence].
  inversion H3'; subst. congruence.
Qed.

Lemma validation_trace this method request routeCtx st out st' :
  validation this method request routeCtx st = (out, st') -> trace st' = trace st.
Proof.
  unfold validation. intros H0.
  apply bind_inv in H0 as [(cq & st1 & H1 & H1')|(e & H1 & _)];
    apply validate_context_query_trace in H1; [|done].
  apply bind_inv in H1' as [(vb & st2 & H2 & H2')|(e & H2 & _)];
    apply validate_body_trace in H2; [|congruence].
  inversion H2'; subst. congruence.
Qed.

(** *** The merge *)

Lemma merge_onto_snoc c0 outs (o : gmap string JsVal) :
  merge_onto c0 (outs ++ [o]) = o ∪ merge_onto c0 outs.
Proof. unfold merge_onto. by rewrite foldl_snoc. Qed.

Lemma merge_onto_cons c0 outs (o : gmap string JsVal) :
  merge_onto c0 (o :: outs) = merge_onto (o ∪ c0) outs.
Proof. done. Qed.

(** A key of the merge comes from the last output that has it, and from the
    start value when none has. *)
Lemma merge_onto_lookup (c0 : gmap string JsVal) outs (k : string) (v : JsVal) :
  merge_onto c0 outs !! k = Some v <->
  (exists j o, outs !! j = Some o /\ o !! k = Some v /\
     forall j' o', (j < j')%nat -> outs !! j' = Some o' -> o' !! k = None) \/
  (c0 !! k = Some v /\ forall j o, outs !! j = Some o -> o !! k = None).
Proof.
  induction outs as [|x outs IH] using rev_ind.
  - simpl. split.
    + intros H. right. split; [done|]. intros j o Hj. by destruct j.
    + intros [(j & o & Hj & _)|[H _]]; [by destruct j | done].
  - rewrite merge_onto_snoc, lookup_union_Some_raw, IH. split.
    + intros [Hx|[Hx [(j & o & Hj & Ho & Hlater)|[Hc Hnone]]]].
      * left. exists (length outs), x. split; [by rewrite list_lookup_middle|].
        split; [done|]. intros j' o' Hlt Hj'.
        apply lookup_lt_Some in Hj'. rewrite length_app in Hj'. simpl in Hj'. lia.
      * left. exists j, o. split; [by apply lookup_app_l_Some|]. split; [done|].
        intros j' o' Hlt Hj'. apply lookup_app_Some in Hj' as [Hj'|[Hge Hj']].
        -- eauto.
        -- destruct (j' - length outs)%nat; simpl in Hj'; [|done]. congruence.
      * right. split; [done|]. intros j o Hj.
        apply lookup_app_Some in Hj as [Hj|[Hge Hj]]; [eauto|].
        destruct (j - length outs)%nat; simpl in Hj; [|done]. congruence.
    + intros [(j & o & Hj & Ho & Hlater)|[Hc Hnone]].
      * apply lookup_app_Some in Hj as [Hj|[Hge Hj]].
        -- right. split.
           ++ apply (Hlater (length outs) x); [by apply lookup_lt_Some in Hj|].
              by rewrite list_lookup_middle.
           ++ left. exists j, o. split; [done|]. split; [done|].
              intros j' o' Hlt Hj'. apply (Hlater j' o' Hlt).
              by apply lookup_app_l_Some.
        -- left. destruct (j - length outs)%nat; simpl in Hj; [|done]. congruence.
      * right. split.
        -- apply (Hnone (length outs) x). by rewrite list_lookup_middle.
        -- right. split; [done|]. intros j o Hj. apply (Hnone j o).
           by apply lookup_app_l_Some.
Qed.

Lemma merge_ltr_later_wins outs : LaterWins outs (merge_ltr outs).
Proof.
  intros k v. unfold merge_ltr. rewrite merge_onto_lookup. split.
  - intros [H|[H _]]; [done|]. by rewrite lookup_empty in H.
  - intros H. by left.
Qed.

(** *** The middleware loop *)

Lemma accumulated_snoc c0 (rs : list Settled) (r : Settled) :
  accumulated c0 (rs ++ [r]) = returned r ∪ ctx_after r.
Proof. unfold accumulated. by rewrite foldl_snoc. Qed.

Lemma step_events_cons i (inputBase : InputBase W) c0 (r : Settled) rs :
  step_events i inputBase c0 (r :: rs) =
  EvMiddleware i (with_ctx inputBase c0) (Returned r)
    :: step_events (S i) inputBase (returned r ∪ ctx_after r) rs.
Proof.
  unfold step_events. rewrite imap_cons. f_equal.
  - by rewrite Nat.add_0_r.
  - apply imap_ext. intros j x _. simpl. by rewrite Nat.add_succ_r.
Qed.

Lemma steps_completed_nil steps (inputBase : InputBase W) c0 w :
  steps_completed steps inputBase c0 [] [w].
Proof. split; [done|]. intros j o Hj. by destruct j. Qed.

Lemma steps_completed_cons m steps (inputBase : InputBase W) c0 (r : Settled)
    rs w w' ws :
  m (with_ctx inputBase c0) w = (Returned r, w') ->
  ws !! 0%nat = Some w' ->
  steps_completed steps inputBase (returned r ∪ ctx_after r) rs ws ->
  steps_completed (m :: steps) inputBase c0 (r :: rs) (w :: ws).
Proof.
  intros Hm Hw' [Hlen Hsteps]. split; [simpl; by rewrite Hlen|].
  intros [|j] r' Hj; simpl in Hj.
  - inversion Hj; subst. exists m, w, w'. done.
  - destruct (Hsteps j r' Hj) as (m' & w1 & w2 & ? & ? & ? & ?).
    exists m', w1, w2. done.
Qed.

(** The loop runs the steps in order, each on the accumulator as the steps
    before it left it, and stops at the first step that throws. *)
Lemma run_middlewares_spec steps : forall i (inputBase : InputBase W) c0 st,
  exists rs ws wl,
    steps_completed steps inputBase c0 rs ws /\
    ws !! 0%nat = Some (world st) /\ last ws = Some wl /\
    ((length rs = length steps /\
      run_middlewares i steps inputBase c0 st =
        (Returned (accumulated c0 rs),
         {| world := wl; trace := trace st ++ step_events i inputBase c0 rs |}))
     \/
     (exists m e w',
        steps !! length rs = Some m /\
        m (with_ctx inputBase (accumulated c0 rs)) wl = (Thrown e, w') /\
        run_middlewares i steps inputBase c0 st =
          (Thrown e,
           {| world := w';
              trace := trace st ++ step_events i inputBase c0 rs
                         ++ [EvMiddleware (i + length rs)
                               (with_ctx inputBase (accumulated c0 rs)) (Thrown e)] |}))).
Proof.
  induction steps as [|m steps IH]; intros i inputBase c0 st.
  - exists [], [world st], (world st). split; [apply steps_completed_nil|].
    split; [done|]. split; [done|]. left. split; [done|].
    destruct st as [w tr]. simpl. unfold ret. by rewrite app_nil_r.
  - simpl. destruct (m (with_ctx inputBase c0) (world st)) as [[r|e] w1] eqn:Hm.
    + set (st1 := {| world := w1;
                     trace := trace st ++ [EvMiddleware i (with_ctx inputBase c0) (Returned r)] |}).
      destruct (IH (S i) inputBase (returned r ∪ ctx_after r) st1)
        as (rs & ws & wl & Hsteps & Hw0 & Hlast & Hrun).
      assert (ws <> []) as Hne by (intros ->; done).
      exists (r :: rs), (world st :: ws), wl.
      split; [by eapply steps_completed_cons|]. split; [done|].
      split; [destruct ws; done|].
      assert (await_logged (m (with_ctx inputBase c0))
                (EvMiddleware i (with_ctx inputBase c0)) st = (Returned r, st1)) as Hstep.
      { unfold await_logged. by rewrite Hm. }
      rewrite (bind_returned _ _ _ _ _ Hstep).
      destruct Hrun as [[Hlen Hrun]|(m' & e & w' & Hm' & He & Hrun)].
      * left. split; [simpl; by rewrite Hlen|].
        rewrite Hrun, step_events_cons. simpl.
        by rewrite <- app_assoc.
      * right. exists m', e, w'. split; [done|]. split; [done|].
        rewrite Hrun, step_events_cons. simpl.
        rewrite <- app_assoc. simpl. by rewrite Nat.add_succ_r.
    + exists [], [world st], (world st). split; [apply steps_completed_nil|].
      split; [done|]. split; [done|]. right. exists m, e, w1.
      split; [done|]. split; [done|].
      unfold bind, await_logged. rewrite Hm. simpl. by rewrite Nat.add_0_r.
Qed.

(** When no step writes to [ctx], the accumulator is the left-to-right merge
    of what the steps returned. *)
Lemma accumulated_steady steps (inputBase : InputBase W) c0 (rs : list Settled) ws :
  Forall steady steps ->
  steps_completed steps inputBase c0 rs ws ->
  forall j : nat,
    accumulated c0 (take j rs) = merge_onto c0 (returned <$> take j rs).
Proof.
  intros Hsteady [_ Hsteps]. induction j as [|j IH]; [done|].
  destruct (rs !! j) as [r|] eqn:Hj.
  - rewrite (take_S_r _ _ _ Hj), accumulated_snoc, fmap_app. simpl.
    rewrite merge_onto_snoc.
    destruct (Hsteps j r Hj) as (m & w & w' & Hm & _ & _ & Hcall).
    assert (steady m) as Hm_steady.
    { eapply Forall_forall; [exact Hsteady|]. by eapply list_elem_of_lookup_2. }
    rewrite (Hm_steady _ _ _ _ Hcall). simpl. by rewrite IH.
  - apply lookup_ge_None in Hj.
    rewrite (take_ge rs (S j)) by lia. rewrite (take_ge rs j) in IH by lia. done.
Qed.

(** The loop only calls middleware. *)
Lemma run_middlewares_trace steps i (inputBase : InputBase W) c0 st :
  exists evs : list (Event W),
    trace (snd (run_middlewares i steps inputBase c0 st)) = trace st ++ evs /\
    forallb is_step evs = true.
Proof.
  destruct (run_middlewares_spec steps i inputBase c0 st)
    as (rs & ws & wl & _ & _ & _ & [[_ ->]|(m & e & w' & _ & _ & ->)]); simpl.
  - eexists. split; [done|]. unfold step_events.
    apply forallb_forall. intros ev Hin. apply list_elem_of_In in Hin.
    apply list_elem_of_lookup in Hin as [j Hj].
    rewrite list_lookup_imap in Hj.
    destruct (rs !! j); inversion Hj; subst. done.
  - eexists. split; [done|]. rewrite forallb_app. simpl.
    rewrite andb_true_r. unfold step_events.
    apply forallb_forall. intros ev Hin. apply list_elem_of_In in Hin.
    apply list_elem_of_lookup in Hin as [j Hj].
    rewrite list_lookup_imap in Hj.
    destruct (rs !! j); inversion Hj; subst. done.
Qed.

(** *** The outer [try] and [catch] *)

(** The [try] block calls middleware and the handler, nothing else. *)
Lemma try_block_trace this method handler request routeCtx st :
  exists evs : list (Event W),
    trace (snd (try_block this method handler request routeCtx st)) = trace st ++ evs /\
    forallb is_step evs = true.
Proof.
  unfold try_block, bind at 1.
  destruct (validation this method request routeCtx st) as [[ib|e] st1] eqn:Hv;
    apply validation_trace in Hv.
  2: { exists []. simpl. by rewrite app_nil_r. }
  unfold bind at 1.
  destruct (run_middlewares_trace (middlewares this) 0 ib ∅ st1) as (evs & Hevs & Hall).
  destruct (run_middlewares 0 (middlewares this) ib ∅ st1) as [[c|e] st2];
    simpl in Hevs.
  2: { exists evs. simpl. split; [congruence|done]. }
  unfold handle, bind, await_logged.
  destruct (handler (with_ctx ib c) (world st2)) as [[r|e] w3]; simpl.
  - exists (evs ++ [EvHandler (with_ctx ib c) (Returned r)]).
    rewrite Hevs, Hv, app_assoc, forallb_app, Hall. done.
  - exists (evs ++ [EvHandler (with_ctx ib c) (Thrown e)]).
    rewrite Hevs, Hv, app_assoc, forallb_app, Hall. done.
Qed.

Lemma unclassified_inv e :
  unclassified e = true ->
  isNextJsInternalError e = false /\ instanceof_ApiError e = false.
Proof.
  unfold unclassified. intros H. apply andb_true_iff in H as [H1 H2].
  by apply negb_true_iff in H1, H2.
Qed.

(** The test of lines 69-78, in words: the object has a [digest] property
    that is a string starting with "NEXT_". *)
Lemma isNextJsInternalError_spec (e : JsVal) :
  isNextJsInternalError e = true <->
  exists digest : string,
    get_prop e "digest" = Some (VStr digest) /\ startsWith "NEXT_" digest = true.
Proof.
  unfold isNextJsInternalError, prop_in. split.
  - destruct (get_prop e "digest") as [[]|] eqn:Hd;
      destruct (typeof_object e), (is_null e); simpl; try done.
    intros H. eauto.
  - intros (digest & Hd & Hp). rewrite Hd.
    unfold get_prop in Hd. by destruct e.
Qed.

Lemma catch_block_signal this request e st :
  isNextJsInternalError e = true -> catch_block this request e st = (Thrown e, st).
Proof. intros H. unfold catch_block. by rewrite H. Qed.

(** [NextResponse.json] on a value that has a JSON text and a status it
    takes: the response with that value and that status. *)
Lemma NextResponse_json_valid (payload : JsVal) (status : Z) :
  json_encodable payload = true ->
  valid_status status = true ->
  NextResponse_json payload status = Returned (VNextResponse status payload).
Proof.
  unfold NextResponse_json, valid_status, to_status. intros -> Hvalid.
  apply andb_true_iff in Hvalid as [Hrange Hbody].
  apply andb_true_iff in Hrange as [Hlo Hhi].
  apply Z.leb_le in Hlo, Hhi. apply negb_true_iff in Hbody.
  rewrite Z.mod_small by lia.
  apply Z.leb_le in Hlo, Hhi. by rewrite Hlo, Hhi, Hbody.
Qed.

(** [NextResponse.json] on a value that has a JSON text and a status it does
    not take throws. *)
Lemma NextResponse_json_invalid (payload : JsVal) (status : Z) :
  json_encodable payload = true ->
  valid_status (to_status status) = false ->
  exists e : JsVal,
    NextResponse_json payload status = Thrown e /\
    (e = range_error \/ e = type_error).
Proof.
  unfold NextResponse_json, valid_status. intros -> Hinvalid. simpl.
  destruct ((200 <=? to_status status)%Z && (to_status status <=? 599)%Z);
    simpl in *; [|by exists range_error; split; [|left]].
  apply negb_false_iff in Hinvalid. rewrite Hinvalid.
  by exists type_error; split; [|right].
Qed.

(** What [NextResponse.json] throws is one of the two platform errors. *)
Lemma NextResponse_json_thrown (payload : JsVal) (status : Z) (e : JsVal) :
  NextResponse_json payload status = Thrown e ->
  e = type_error \/ e = range_error.
Proof.
  unfold NextResponse_json.
  destruct (negb (json_encodable payload)); [intros H; inversion H; by left|].
  destruct (negb _); [intros H; inversion H; by right|].
  destruct (null_body_status _); [intros H; inversion H; by left|done].
Qed.

(** The platform errors are plain errors. *)
Lemma platform_errors_unclassified (e : JsVal) :
  e = type_error \/ e = range_error -> unclassified e = true.
Proof. by intros [->| ->]. Qed.

Lemma catch_block_api_error this request code type message issues extra st :
  isNextJsInternalError (VApiError code type message issues extra) = false ->
  catch_block this request (VApiError code type message issues extra) st =
    (NextResponse_json
       (VObj [("message", VStr message); ("type", VStr type);
              ("issues", opt_array issues)])
       code,
     st).
Proof. intros H. unfold catch_block. by rewrite H. Qed.

Lemma catch_block_api_error_valid this request code type message issues extra st :
  isNextJsInternalError (VApiError code type message issues extra) = false ->
  valid_status code = true ->
  catch_block this request (VApiError code type message issues extra) st =
    (Returned (api_error_response code type message issues), st).
Proof.
  intros H Hvalid. rewrite (catch_block_api_error _ _ _ _ _ _ _ _ H).
  by rewrite NextResponse_json_valid.
Qed.

Lemma catch_block_unclassified this request e :
  unclassified e = true ->
  catch_block this request e =
    (run_failureHandler this request e;;;
     console_error "Unhandled API error:" e;;;
     ret internal_error_response).
Proof.
  intros H. apply unclassified_inv in H as [H1 H2].
  unfold catch_block. rewrite H1. by destruct e.
Qed.

(** The hook is called once when there is one, and whatever it does, the
    [catch] block goes on to the 500 response. *)
Lemma catch_block_unclassified_run this request e st :
  unclassified e = true ->
  exists w' (logged : list (Event W)),
    catch_block this request e st =
      (Returned internal_error_response,
       {| world := w'; trace := trace st ++ logged ++ [EvConsoleError "Unhandled API error:" e] |}) /\
    match failureHandler this with
    | None => logged = [] /\ w' = world st
    | Some hook =>
        exists out, hook request e (world st) = (out, w') /\
          logged = EvFailureHandler request e out ::
                   match out with
                   | Returned _ => []
                   | Thrown err => [EvConsoleError "Error within .failed() handler:" err]
                   end
    end.
Proof.
  intros H. rewrite (catch_block_unclassified _ _ _ H).
  unfold run_failureHandler, bind, console_error, ret, try_catch, await_logged.
  destruct (failureHandler this) as [hook|].
  - destruct (hook request e (world st)) as [[[]|err] w'] eqn:Hh; simpl.
    + exists w', [EvFailureHandler request e (Returned ())]. split.
      * by rewrite <- app_assoc.
      * by exists (Returned ()).
    + exists w', [EvFailureHandler request e (Thrown err);
                  EvConsoleError "Error within .failed() handler:" err]. split.
      * by rewrite <- !app_assoc.
      * by exists (Thrown err).
  - exists (world st), []. done.
Qed.

Lemma hook_calls_steps (evs : list (Event W)) :
  forallb is_step evs = true -> hook_calls evs = [].
Proof.
  induction evs as [|ev evs IH]; [done|]. simpl. intros H.
  apply andb_true_iff in H as [Hev Hevs]. unfold hook_calls in *. simpl.
  destruct ev; simpl in *; try done; by apply IH.
Qed.

Lemma hook_calls_app (evs1 evs2 : list (Event W)) :
  hook_calls (evs1 ++ evs2) = hook_calls evs1 ++ hook_calls evs2.
Proof. apply List.filter_app. Qed.

(** *** What validation returned *)

Lemma validate_returned_inv schema data st v st' :
  validate schema data st = (Returned v, st') ->
  match schema with
  | Some s => safeParseAsync s data (world st) = (Returned (ParseSuccess v), world st')
  | None => v = data /\ st' = st
  end.
Proof.
  unfold validate. destruct schema as [s|].
  - intros H0. apply bind_inv in H0 as [(r & st1 & H1 & H2)|(e & _ & ?)]; [|done].
    apply await_inv in H1 as (w & Hw & ->).
    destruct r; inversion H2; subst. done.
  - intros H0. inversion H0; subst. by destruct data.
Qed.

Lemma validate_body_returned_inv this method request st v st' :
  validate_body this method request st = (Returned v, st') ->
  if bool_decide (method ∈ [POST; PUT; PATCH]) then
    match bodySchema this with
    | Some s =>
        exists parsed w,
          json request (world st) = (Returned parsed, w) /\
          safeParseAsync s parsed w = (Returned (ParseSuccess v), world st')
    | None => True
    end
  else v = VUndefined /\ st' = st.
Proof.
  unfold validate_body.
  destruct (bool_decide (method ∈ [POST; PUT; PATCH]));
    [|intros Hrun; by inversion Hrun].
  destruct (bodySchema this) as [s|] eqn:Hs; [|done].
  unfold try_catch.
  destruct ((parsed <- await (json request);; validate (Some s) parsed) st)
    as [[a|e] st1] eqn:E; intros Hrun; [|done].
  inversion Hrun; subst.
  apply bind_inv in E as [(parsed & st2 & H1 & H2)|(e & _ & ?)]; [|done].
  apply await_inv in H1 as (w & Hw & ->).
  apply validate_returned_inv in H2. simpl in H2. eauto.
Qed.

(** With a body schema configured, the one error that leaves the body stage
    is INVALID_BODY, whatever was thrown inside its [try]. *)
Lemma validate_body_thrown_inv this method request st e st' :
  is_Some (bodySchema this) ->
  validate_body this method request st = (Thrown e, st') ->
  e = new_ApiError {| code := Some 400;
                      type := Some "INVALID_BODY";
                      message := "Invalid JSON body provided.";
                      issues := None |}.
Proof.
  intros [s Hs]. unfold validate_body, try_catch.
  destruct (bool_decide (method ∈ [POST; PUT; PATCH])); [|done].
  destruct ((parsed <- await (json request);; validate (bodySchema this) parsed) st)
    as [[a|e0] st1]; [done|].
  rewrite Hs. intros Hrun. by inversion Hrun.
Qed.

(** Every call the [try] block makes gets the validated fields. *)
Lemma try_block_inputs this method handler request routeCtx st
    (inputBase : InputBase W) st1 :
  validation this method request routeCtx st = (Returned inputBase, st1) ->
  exists evs : list (Event W),
    trace (snd (try_block this method handler request routeCtx st)) = trace st1 ++ evs /\
    forall ev, ev ∈ evs ->
      exists input : HandlerInput W,
        event_input ev = Some input /\
        input_context input = base_context inputBase /\
        input_query input = base_query inputBase /\
        input_body input = base_body inputBase /\
        req input = base_req inputBase.
Proof.
  intros Hv. unfold try_block. rewrite (bind_returned _ _ _ _ _ Hv).
  assert (forall i c0 rs (ev : Event W),
             ev ∈ step_events i inputBase c0 rs ->
             exists input : HandlerInput W,
               event_input ev = Some input /\
               input_context input = base_context inputBase /\
               input_query input = base_query inputBase /\
               input_body input = base_body inputBase /\
               req input = base_req inputBase) as Hsteps.
  { intros i c0 rs ev Hin. apply list_elem_of_lookup in Hin as [j Hj].
    unfold step_events in Hj. rewrite list_lookup_imap in Hj.
    destruct (rs !! j); inversion Hj; subst. simpl. eexists. done. }
  destruct (run_middlewares_spec (middlewares this) 0 inputBase ∅ st1)
    as (rs & ws & wl & _ & _ & _ & [[_ Hrun]|(m & e & w' & _ & _ & Hrun)]).
  - rewrite (bind_returned _ _ _ _ _ Hrun).
    unfold handle, bind, await_logged, settle. simpl.
    destruct (handler (with_ctx inputBase (accumulated ∅ rs)) wl) as [out w'].
    exists (step_events 0 inputBase ∅ rs
              ++ [EvHandler (with_ctx inputBase (accumulated ∅ rs)) out]).
    split; [destruct out; simpl; by rewrite <- app_assoc|].
    intros ev Hin. apply elem_of_app in Hin as [Hin|Hin]; [eauto|].
    apply list_elem_of_singleton in Hin as ->. simpl. eexists. done.
  - rewrite (bind_thrown _ _ _ _ _ Hrun). simpl.
    eexists. split; [done|].
    intros ev Hin. apply elem_of_app in Hin as [Hin|Hin]; [eauto|].
    apply list_elem_of_singleton in Hin as ->. simpl. eexists. done.
Qed.

(** *** The heap of builders *)

Lemma read_this_inv (h : Heap W) l f :
  read_this h l = Some f ->
  exists o steps,
    objects h !! l = Some o /\ arrays h !! middlewares o = Some steps /\
    f = {| contextSchema := contextSchema o; querySchema := querySchema o;
           bodySchema := bodySchema o; middlewares := steps;
           failureHandler := failureHandler o |}.
Proof.
  unfold read_this. intros H.
  destruct (objects h !! l) as [o|] eqn:Ho; simpl in H; [|done].
  destruct (arrays h !! middlewares o) as [steps|] eqn:Hsteps; simpl in H; [|done].
  inversion H; subst. eauto.
Qed.

Lemma read_this_intro (h : Heap W) l o steps :
  objects h !! l = Some o -> arrays h !! middlewares o = Some steps ->
  read_this h l =
    Some {| contextSchema := contextSchema o; querySchema := querySchema o;
            bodySchema := bodySchema o; middlewares := steps;
            failureHandler := failureHandler o |}.
Proof. intros Ho Hsteps. unfold read_this. rewrite Ho. simpl. by rewrite Hsteps. Qed.

(** Allocation leaves what was there as it was. *)
Lemma new_ApiBuilder_spec (config : Fields W loc) (h : Heap W) :
  exists l,
    new_ApiBuilder config h =
      (l, {| objects := <[l := config]> (objects h); arrays := arrays h |}) /\
    objects h !! l = None.
Proof.
  exists (fresh (dom (objects h))). split; [done|].
  apply not_elem_of_dom, is_fresh.
Qed.

Lemma new_array_spec (items : list (Middleware W)) (h : Heap W) :
  exists l,
    new_array items h =
      (l, {| objects := objects h; arrays := <[l := items]> (arrays h) |}) /\
    arrays h !! l = None.
Proof.
  exists (fresh (dom (arrays h))). split; [done|].
  apply not_elem_of_dom, is_fresh.
Qed.

(** A configuration call on a builder of the heap returns a fresh builder
    whose fields are the receiver's with one changed, and no object or array
    that was in the heap is different afterwards. *)
Lemma call_spec (c : ConfigCall W) (h : Heap W) (this : loc)
    (fields : Fields W (list (Middleware W))) :
  read_this h this = Some fields ->
  exists new h',
    call c this h = Some (new, h') /\
    objects h !! new = None /\
    read_this h' new = Some (changed c fields) /\
    (forall l o, objects h !! l = Some o -> objects h' !! l = Some o) /\
    (forall l a, arrays h !! l = Some a -> arrays h' !! l = Some a).
Proof.
  intros Hread. apply read_this_inv in Hread as (o & steps & Ho & Hsteps & ->).
  destruct c as [schema|schema|schema|middleware|handler]; simpl.
  1-3,5:
    unfold ApiBuilder.context, ApiBuilder.query, ApiBuilder.body, ApiBuilder.failed;
    rewrite Ho; simpl;
    match goal with
    | |- context [new_ApiBuilder ?config ?h0] =>
        destruct (new_ApiBuilder_spec config h0) as (l & Hnew & Hfresh)
    end;
    rewrite Hnew;
    exists l; eexists;
    (split; [reflexivity|]); (split; [exact Hfresh|]);
    (split; [unfold read_this; simpl; rewrite lookup_insert_eq; simpl;
             rewrite Hsteps; reflexivity|]);
    (split; [|intros l' a' Hl'; exact Hl']);
    intros l' o' Hl'; simpl; rewrite lookup_insert_ne; [exact Hl'|congruence].
  unfold use. rewrite Ho. cbn -[new_array new_ApiBuilder].
  rewrite Hsteps. cbn -[new_array new_ApiBuilder].
  destruct (new_array_spec (steps ++ [middleware]) h) as (arr & Harr & Hfresh_arr).
  rewrite Harr.
  match goal with
  | |- context [new_ApiBuilder ?config ?h1] =>
      destruct (new_ApiBuilder_spec config h1) as (l & Hnew & Hfresh)
  end.
  rewrite Hnew. simpl in *.
  exists l. eexists. split; [reflexivity|]. split; [exact Hfresh|]. split; [|split].
  - unfold read_this. simpl. rewrite lookup_insert_eq. simpl.
    by rewrite lookup_insert_eq.
  - intros l' o' Hl'. simpl. rewrite lookup_insert_ne; [exact Hl'|congruence].
  - intros l' a' Hl'. simpl. rewrite lookup_insert_ne; [exact Hl'|congruence].
Qed.

(** A builder that could be read before a configuration call reads the same
    after it. *)
Lemma read_this_preserved (h h' : Heap W) l f :
  (forall l o, objects h !! l = Some o -> objects h' !! l = Some o) ->
  (forall l a, arrays h !! l = Some a -> arrays h' !! l = Some a) ->
  read_this h l = Some f -> read_this h' l = Some f.
Proof.
  intros Hobj Harr Hread.
  apply read_this_inv in Hread as (o & steps & Ho & Hsteps & ->).
  apply read_this_intro; eauto.
Qed.

End Stages.

(** ** The claims *)

Section Claims.

Context {W : Type}.
Implicit Types (st : State W) (this : Fields W (list (Middleware W))).
Implicit Types (handler : Handler W) (request : NextRequest W) (routeCtx : RouteCtx W).

(** C2, as amended. When validation passes, every call to a middleware and
    to the handler gets the request it was made for and, for each schema
    that is configured, that schema's output: the field [context] of the
    input it receives is the output of the context schema on the route
    parameters, [query] is the output of the query schema on the object of
    the search parameters, and, when the method is POST, PUT or PATCH,
    [body] is the output of the body schema on the parsed payload; the
    schemas run in this order, each in the world the one before it left. For
    every other method [body] is [undefined], with or without a body schema.
    (The pipeline hands these three values on as validation produced them: it
    neither reads nor copies them between the calls.) *)
Theorem C2_validated_fields this method handler request routeCtx st
    (inputBase : InputBase W) st1 :
  validation this method request routeCtx st = (Returned inputBase, st1) ->
  (exists (raw : JsVal) (w1 w2 w3 : W),
      params routeCtx (world st) = (Returned raw, w1) /\
      match contextSchema this with
      | Some s =>
          safeParseAsync s raw w1
            = (Returned (ParseSuccess (base_context inputBase)), w2)
      | None => w2 = w1
      end /\
      match querySchema this with
      | Some s =>
          safeParseAsync s (fromEntries (searchParams request)) w2
            = (Returned (ParseSuccess (base_query inputBase)), w3)
      | None => w3 = w2
      end /\
      if bool_decide (method ∈ [POST; PUT; PATCH]) then
        match bodySchema this with
        | Some s =>
            exists (parsed : JsVal) (w4 : W),
              json request w3 = (Returned parsed, w4) /\
              safeParseAsync s parsed w4
                = (Returned (ParseSuccess (base_body inputBase)), world st1)
        | None => True
        end
      else base_body inputBase = VUndefined /\ world st1 = w3) /\
  (exists evs : list (Event W),
      trace (snd (try_block this method handler request routeCtx st))
        = trace st1 ++ evs /\
      forall ev, ev ∈ evs ->
        exists input : HandlerInput W,
          event_input ev = Some input /\
          input_context input = base_context inputBase /\
          input_query input = base_query inputBase /\
          input_body input = base_body inputBase /\
          req input = request).
Proof.
  intros Hv.
  assert (base_req inputBase = request) as Hreq.
  { unfold validation in Hv.
    apply bind_inv in Hv as [(cq & st2 & Hcq & Hv)|(e & _ & ?)]; [|done].
    apply bind_inv in Hv as [(vb & st3 & Hb & Hv)|(e & _ & ?)]; [|done].
    by inversion Hv; subst. }
  split.
  - unfold validation in Hv.
    apply bind_inv in Hv as [(cq & st2 & Hcq & Hv)|(e & _ & ?)]; [|done].
    apply bind_inv in Hv as [(vb & st3 & Hb & Hv)|(e & _ & ?)]; [|done].
    inversion Hv; subst; clear Hv. simpl.
    unfold validate_context_query in Hcq.
    apply bind_inv in Hcq as [(raw & sta & Ha & Hcq)|(e & _ & ?)]; [|done].
    apply await_inv in Ha as (w1 & Hparams & ->).
    apply bind_inv in Hcq as [(vc & stb & Hc & Hcq)|(e & _ & ?)]; [|done].
    apply bind_inv in Hcq as [(vq & stc & Hq & Hcq)|(e & _ & ?)]; [|done].
    inversion Hcq; subst; clear Hcq. simpl.
    apply validate_returned_inv in Hc, Hq. simpl in Hc.
    apply validate_body_returned_inv in Hb.
    exists raw, w1, (world stb), (world st2). split; [done|]. split; [|split].
    + destruct (contextSchema this); [done|]. by destruct Hc as [_ ->].
    + destruct (querySchema this); [done|]. by destruct Hq as [_ ->].
    + destruct (bool_decide (method ∈ [POST; PUT; PATCH])); [done|].
      by destruct Hb as [-> ->].
  - destruct (try_block_inputs this method handler request routeCtx st
                inputBase st1 Hv) as (evs & Htrace & Hinputs).
    exists evs. split; [done|]. intros ev Hin.
    destruct (Hinputs ev Hin) as (input & ? & ? & ? & ? & Hr).
    exists input. rewrite Hr, Hreq. done.
Qed.

(** C3, as amended. Validation has passed and no middleware writes to the
    [ctx] object it is handed. Then the middleware run in list order from the
    empty context: there are outputs [outs], worlds [ws] and events [evs]
    such that step [j] is the [j]-th middleware, starts in the world step
    [j-1] left, and returns [outs !! j]; the input it receives has as [ctx]
    the left-to-right merge of [outs] before [j] (later keys winning), as
    [context], [query] and [body] what validation produced, and as [req] the
    request; the call is the [j]-th event of the request after validation.
    Either every step completed and the handler is called next, its [ctx]
    being the merge of all outputs, or the step after [outs] throws: then the
    [try] block throws that error, the trace ends with that step (no later
    step and no handler call), and the error is what the outer [catch]
    receives. *)
Theorem C3_middleware_chain this method handler request routeCtx st
    (inputBase : InputBase W) st1 :
  validation this method request routeCtx st = (Returned inputBase, st1) ->
  Forall steady (middlewares this) ->
  exists (outs : list (gmap string JsVal)) (ws : list W) (wl : W)
         (evs : list (Event W)),
    length ws = S (length outs) /\
    ws !! 0%nat = Some (world st1) /\
    last ws = Some wl /\
    length evs = S (length outs) /\
    (forall (j : nat) (o : gmap string JsVal),
        outs !! j = Some o ->
        exists (m : Middleware W) (input : HandlerInput W) (r : Settled) (w w' : W),
          middlewares this !! j = Some m /\ ws !! j = Some w /\ ws !! S j = Some w' /\
          ctx input = merge_ltr (take j outs) /\
          input_context input = base_context inputBase /\
          input_query input = base_query inputBase /\
          input_body input = base_body inputBase /\
          req input = request /\
          m input w = (Returned r, w') /\ returned r = o /\
          evs !! j = Some (EvMiddleware j input (Returned r))) /\
    (forall j : nat, LaterWins (take j outs) (merge_ltr (take j outs))) /\
    ((length outs = length (middlewares this) /\
      exists (input : HandlerInput W) (result : Outcome JsVal) (w' : W),
        ctx input = merge_ltr outs /\
        input_context input = base_context inputBase /\
        input_query input = base_query inputBase /\
        input_body input = base_body inputBase /\
        req input = request /\
        handler input wl = (result, w') /\
        evs !! length outs = Some (EvHandler input result) /\
        snd (try_block this method handler request routeCtx st) =
          {| world := w'; trace := trace st1 ++ evs |})
     \/
     (exists (m : Middleware W) (input : HandlerInput W) (e : JsVal) (w' : W),
        middlewares this !! length outs = Some m /\
        ctx input = merge_ltr outs /\
        input_context input = base_context inputBase /\
        input_query input = base_query inputBase /\
        input_body input = base_body inputBase /\
        req input = request /\
        m input wl = (Thrown e, w') /\
        evs !! length outs = Some (EvMiddleware (length outs) input (Thrown e)) /\
        let st2 := {| world := w'; trace := trace st1 ++ evs |} in
        try_block this method handler request routeCtx st = (Thrown e, st2) /\
        createRouteHandler this method handler request routeCtx st
          = catch_block this request e st2)).
Proof.
  intros Hv Hsteady.
  assert (base_req inputBase = request) as Hreq.
  { unfold validation in Hv.
    apply bind_inv in Hv as [(cq & st2 & Hcq & Hv)|(e & _ & ?)]; [|done].
    apply bind_inv in Hv as [(vb & st3 & Hb & Hv)|(e & _ & ?)]; [|done].
    by inversion Hv; subst. }
  destruct (run_middlewares_spec (middlewares this) 0 inputBase ∅ st1)
    as (rs & ws & wl & Hcompleted & Hw0 & Hlast & Hrun).
  pose proof (accumulated_steady _ _ _ _ _ Hsteady Hcompleted) as Hacc.
  assert (accumulated ∅ rs = merge_ltr (returned <$> rs)) as Hall.
  { specialize (Hacc (length rs)). by rewrite firstn_all in Hacc. }
  destruct Hcompleted as [Hlen Hsteps].
  set (final := fun ev : Event W => step_events 0 inputBase ∅ rs ++ [ev]).
  assert (forall ev, length (final ev) = S (length (returned <$> rs))) as Hfinal_len.
  { intros ev. unfold final, step_events.
    rewrite length_app, length_imap, length_fmap. simpl. lia. }
  assert (forall ev, final ev !! length (returned <$> rs) = Some ev) as Hfinal_last.
  { intros ev. unfold final. rewrite length_fmap.
    rewrite lookup_app_r; unfold step_events; rewrite length_imap; [|lia].
    by rewrite Nat.sub_diag. }
  assert (forall ev (j : nat) (o : gmap string JsVal),
            (returned <$> rs) !! j = Some o ->
            exists (m : Middleware W) (input : HandlerInput W) (r : Settled) (w w' : W),
              middlewares this !! j = Some m /\ ws !! j = Some w /\
              ws !! S j = Some w' /\
              ctx input = merge_ltr (take j (returned <$> rs)) /\
              input_context input = base_context inputBase /\
              input_query input = base_query inputBase /\
              input_body input = base_body inputBase /\
              req input = request /\
              m input w = (Returned r, w') /\ returned r = o /\
              final ev !! j = Some (EvMiddleware j input (Returned r))) as Hreceived.
  { intros ev j o Hj. rewrite list_lookup_fmap in Hj.
    destruct (rs !! j) as [r|] eqn:Hr; [|done]. simpl in Hj. inversion Hj; subst o.
    destruct (Hsteps j r Hr) as (m & w & w' & Hm & Hw & Hw' & Hcall).
    exists m, (with_ctx inputBase (accumulated ∅ (take j rs))), r, w, w'.
    split; [done|]. split; [done|]. split; [done|].
    split; [simpl; by rewrite Hacc, <- fmap_take|].
    split; [done|]. split; [done|]. split; [done|]. split; [done|].
    split; [done|]. split; [done|].
    unfold final. rewrite lookup_app_l.
    - unfold step_events. by rewrite list_lookup_imap, Hr.
    - unfold step_events. rewrite length_imap. by eapply lookup_lt_Some. }
  unfold createRouteHandler, try_block.
  destruct Hrun as [[Hdone Hrun]|(m & e & w' & Hm & He & Hrun)].
  - destruct (handler (with_ctx inputBase (accumulated ∅ rs)) wl) as [result w'] eqn:Hh.
    exists (returned <$> rs), ws, wl,
      (final (EvHandler (with_ctx inputBase (accumulated ∅ rs)) result)).
    split; [by rewrite length_fmap|]. split; [done|]. split; [done|].
    split; [done|]. split; [apply Hreceived|].
    split; [intros j; apply merge_ltr_later_wins|].
    left. split; [by rewrite length_fmap|].
    exists (with_ctx inputBase (accumulated ∅ rs)), result, w'.
    split; [done|]. split; [done|]. split; [done|]. split; [done|].
    split; [done|]. split; [done|]. split; [done|].
    rewrite (bind_returned _ _ _ _ _ Hv), (bind_returned _ _ _ _ _ Hrun).
    unfold handle, bind, await_logged, settle. simpl. rewrite Hh.
    unfold final. rewrite <- app_assoc. by destruct result.
  - exists (returned <$> rs), ws, wl,
      (final (EvMiddleware (length rs) (with_ctx inputBase (accumulated ∅ rs)) (Thrown e))).
    split; [by rewrite length_fmap|]. split; [done|]. split; [done|].
    split; [done|]. split; [apply Hreceived|].
    split; [intros j; apply merge_ltr_later_wins|].
    right. exists m, (with_ctx inputBase (accumulated ∅ rs)), e, w'.
    split; [by rewrite length_fmap|].
    split; [done|]. split; [done|]. split; [done|]. split; [done|].
    split; [done|]. split; [done|].
    split; [by rewrite Hfinal_last, length_fmap|]. cbv zeta.
    assert ((inputBase0 <- validation this method request routeCtx;;
             cumulativeCtx <- run_middlewares 0 (middlewares this) inputBase0 ∅;;
             handle method handler inputBase0 cumulativeCtx) st
            = (Thrown e,
               {| world := w';
                  trace := trace st1 ++
                    final (EvMiddleware (length rs)
                             (with_ctx inputBase (accumulated ∅ rs)) (Thrown e)) |}))
      as Htry.
    { rewrite (bind_returned _ _ _ _ _ Hv). by rewrite (bind_thrown _ _ _ _ _ Hrun). }
    split; [done|]. by rewrite (try_catch_thrown _ _ _ _ _ Htry).
Qed.

(** C4. A configuration call on a builder [this] of the heap returns a
    builder that was not in the heap before, whose fields are those of [this]
    with the one field of the call changed; every object and every array of
    the heap is afterwards what it was, so [this] and every other builder
    read as before and their route handlers are the same functions. Two
    builders derived from [this], by calls [c] and [c2], give the route
    handlers of their own fields each, and [this] still gives its own. *)
Theorem C4_configuration_is_persistent (h : Heap W) (this : loc)
    (fields : Fields W (list (Middleware W))) (c : ConfigCall W) :
  read_this h this = Some fields ->
  exists (new : loc) (h' : Heap W),
    call c this h = Some (new, h') /\
    objects h !! new = None /\
    read_this h' new = Some (changed c fields) /\
    (forall l o, objects h !! l = Some o -> objects h' !! l = Some o) /\
    (forall l a, arrays h !! l = Some a -> arrays h' !! l = Some a) /\
    (forall l f method handler,
        read_this h l = Some f ->
        route_handler h' l method handler = route_handler h l method handler) /\
    (forall c2 : ConfigCall W,
        exists (new2 : loc) (h'' : Heap W),
          call c2 this h' = Some (new2, h'') /\
          new2 <> new /\
          forall method handler,
            route_handler h'' new method handler
              = Some (createRouteHandler (changed c fields) method handler) /\
            route_handler h'' new2 method handler
              = Some (createRouteHandler (changed c2 fields) method handler) /\
            route_handler h'' this method handler
              = Some (createRouteHandler fields method handler)).
Proof.
  intros Hread.
  destruct (call_spec c h this fields Hread)
    as (new & h' & Hcall & Hfresh & Hnew & Hobj & Harr).
  exists new, h'. split; [done|]. split; [done|]. split; [done|].
  split; [done|]. split; [done|]. split.
  - intros l f method handler Hl. unfold route_handler.
    by rewrite Hl, (read_this_preserved h h' l f Hobj Harr Hl).
  - intros c2.
    pose proof (read_this_preserved h h' this fields Hobj Harr Hread) as Hread'.
    destruct (call_spec c2 h' this fields Hread')
      as (new2 & h'' & Hcall2 & Hfresh2 & Hnew2 & Hobj2 & Harr2).
    exists new2, h''. split; [done|]. split.
    + intros ->. apply read_this_inv in Hnew as (o & ? & Ho & _). congruence.
    + intros method handler. unfold route_handler.
      rewrite (read_this_preserved h' h'' new _ Hobj2 Harr2 Hnew), Hnew2,
        (read_this_preserved h' h'' this _ Hobj2 Harr2 Hread').
      done.
Qed.

(** C5. A POST, PUT or PATCH request whose payload does not parse, the route
    parameters and the query string having passed validation. With a body
    schema: validation throws the [ApiError] 400 INVALID_BODY, the response is
    that error's, and the trace is the one the request started with, so
    neither a middleware nor the handler was called. Without one: the parse
    error is dropped, [body] is [undefined], and the request goes on with the
    middleware chain and the handler. *)
Theorem C5_unparsable_payload this method handler request routeCtx st
    (validatedContext validatedQuery : JsVal) st1 (e : JsVal) (w2 : W) :
  method ∈ [POST; PUT; PATCH] ->
  validate_context_query this request routeCtx st
    = (Returned (validatedContext, validatedQuery), st1) ->
  json request (world st1) = (Thrown e, w2) ->
  let st2 := {| world := w2; trace := trace st |} in
  match bodySchema this with
  | Some _ =>
      validation this method request routeCtx st =
        (Thrown (new_ApiError {| code := Some 400;
                                 type := Some "INVALID_BODY";
                                 message := "Invalid JSON body provided.";
                                 issues := None |}), st2) /\
      createRouteHandler this method handler request routeCtx st =
        (Returned (api_error_response 400 "INVALID_BODY"
                     "Invalid JSON body provided." None), st2)
  | None =>
      let inputBase := {| base_context := validatedContext;
                          base_query := validatedQuery;
                          base_body := VUndefined;
                          base_req := request |} in
      validation this method request routeCtx st = (Returned inputBase, st2) /\
      createRouteHandler this method handler request routeCtx st =
        try_catch
          (cumulativeCtx <- run_middlewares 0 (middlewares this) inputBase ∅;;
           handle method handler inputBase cumulativeCtx)
          (catch_block this request) st2
  end.
Proof.
  intros Hmethod Hcq Hjson st2.
  pose proof (validate_context_query_trace _ _ _ _ _ _ Hcq) as Htrace.
  assert (await (json request) st1 = (Thrown e, st2)) as Hawait.
  { unfold await. rewrite Hjson. unfold st2. by rewrite Htrace. }
  assert (validate_body this method request st1 =
            match bodySchema this with
            | Some _ =>
                (Thrown (new_ApiError {| code := Some 400;
                                         type := Some "INVALID_BODY";
                                         message := "Invalid JSON body provided.";
                                         issues := None |}), st2)
            | None => (Returned VUndefined, st2)
            end) as Hbody.
  { unfold validate_body. rewrite bool_decide_eq_true_2 by done.
    unfold try_catch. rewrite (bind_thrown _ _ _ _ _ Hawait).
    by destruct (bodySchema this). }
  unfold createRouteHandler, try_block, validation.
  destruct (bodySchema this) as [schema|].
  - assert ((validated <- validate_context_query this request routeCtx;;
             validatedBody <- validate_body this method request;;
             ret {| base_context := validated.1; base_query := validated.2;
                    base_body := validatedBody; base_req := request |}) st
            = (Thrown (new_ApiError {| code := Some 400;
                                       type := Some "INVALID_BODY";
                                       message := "Invalid JSON body provided.";
                                       issues := None |}), st2)) as Hval.
    { rewrite (bind_returned _ _ _ _ _ Hcq).
      by rewrite (bind_thrown _ _ _ _ _ Hbody). }
    split; [done|].
    rewrite (try_catch_thrown _ _ _ _ _ (bind_thrown _ _ _ _ _ Hval)).
    by apply catch_block_api_error.
  - cbv zeta.
    pose (inputBase := {| base_context := validatedContext;
                          base_query := validatedQuery;
                          base_body := VUndefined;
                          base_req := request |}).
    assert ((validated <- validate_context_query this request routeCtx;;
             validatedBody <- validate_body this method request;;
             ret {| base_context := validated.1; base_query := validated.2;
                    base_body := validatedBody; base_req := request |}) st
            = (Returned inputBase, st2)) as Hval.
    { rewrite (bind_returned _ _ _ _ _ Hcq).
      by rewrite (bind_returned _ _ _ _ _ Hbody). }
    split; [done|].
    unfold try_catch at 1. by rewrite (bind_returned _ _ _ _ _ Hval).
Qed.

(** C6, as amended. Of the events [evs] that one request adds to the trace,
    at most one is a call of the failure hook. When an [ApiError] that is no
    platform signal leaves the [try] block, no hook call is among [evs]; if
    its code is a status that a response with a body takes (200 to 599, and
    none of 204, 205, 304), the answer is its [{message, type, issues}] at
    that status; if its code, read as an unsigned 16-bit number, is no such
    status, [NextResponse.json] throws in the [catch] block and the route
    handler throws that [RangeError] or [TypeError]. An unclassified error
    that leaves the [try] block is answered with the generic 500 response,
    which does not depend on the error, and the hook, when there is one, is
    called exactly once, with that error. A hook call among [evs] means that
    an unclassified error left the [try] block. *)
Theorem C6_error_classification this method handler request routeCtx st :
  exists evs : list (Event W),
    trace (snd (createRouteHandler this method handler request routeCtx st))
      = trace st ++ evs /\
    (length (hook_calls evs) <= 1)%nat /\
    (forall code type message issues extra st1,
        try_block this method handler request routeCtx st
          = (Thrown (VApiError code type message issues extra), st1) ->
        isNextJsInternalError (VApiError code type message issues extra) = false ->
        hook_calls evs = [] /\
        (valid_status code = true ->
         createRouteHandler this method handler request routeCtx st
           = (Returned (api_error_response code type message issues), st1)) /\
        (valid_status (to_status code) = false ->
         exists e : JsVal,
           createRouteHandler this method handler request routeCtx st
             = (Thrown e, st1) /\
           (e = range_error \/ e = type_error))) /\
    (forall e st1,
        try_block this method handler request routeCtx st = (Thrown e, st1) ->
        unclassified e = true ->
        fst (createRouteHandler this method handler request routeCtx st)
          = Returned internal_error_response /\
        (forall hook, failureHandler this = Some hook ->
           exists out, hook_calls evs = [EvFailureHandler request e out])) /\
    (hook_calls evs <> [] ->
     exists e st1,
       try_block this method handler request routeCtx st = (Thrown e, st1) /\
       unclassified e = true).
Proof.
  destruct (try_block_trace this method handler request routeCtx st)
    as (evs0 & Htrace & Hsteps).
  pose proof (hook_calls_steps _ Hsteps) as Hnone.
  unfold createRouteHandler, try_catch.
  destruct (try_block this method handler request routeCtx st) as [[r|e] st1] eqn:Htry;
    simpl in Htrace.
  { exists evs0. rewrite Hnone. simpl. repeat split; try done; lia. }
  destruct (isNextJsInternalError e) eqn:Hsignal.
  { rewrite (catch_block_signal _ _ _ _ Hsignal). exists evs0. rewrite Hnone. simpl.
    split; [done|]. split; [lia|]. split; [|split].
    - intros ? ? ? ? ? ? Heq Hno. inversion Heq; subst. congruence.
    - intros e' st' Heq Hun. inversion Heq; subst.
      apply unclassified_inv in Hun as [? _]. congruence.
    - done. }
  destruct (instanceof_ApiError e) eqn:Hapi.
  { destruct e; try discriminate.
    rewrite (catch_block_api_error _ _ _ _ _ _ _ _ Hsignal).
    exists evs0. rewrite Hnone. cbn [snd].
    split; [done|]. split; [simpl; lia|]. split; [|split].
    - intros ? ? ? ? ? ? Heq _. inversion Heq; subst. split; [done|]. split.
      + intros Hvalid. by rewrite NextResponse_json_valid.
      + intros Hinvalid.
        edestruct NextResponse_json_invalid as (e & -> & He);
          [|exact Hinvalid|by exists e]. done.
    - intros e' st' Heq Hun. inversion Heq; subst.
      by apply unclassified_inv in Hun as [_ ?].
    - done. }
  assert (unclassified e = true) as Hun.
  { unfold unclassified. by rewrite Hsignal, Hapi. }
  destruct (catch_block_unclassified_run this request e st1 Hun)
    as (w' & logged & Hrun & Hlogged).
  rewrite Hrun. simpl.
  exists (evs0 ++ logged ++ [EvConsoleError "Unhandled API error:" e]).
  rewrite Htrace, <- app_assoc. split; [done|].
  rewrite !hook_calls_app, Hnone. simpl.
  assert (hook_calls logged ++ [] = hook_calls logged) as -> by apply app_nil_r.
  destruct (failureHandler this) as [hook|].
  - destruct Hlogged as (out & Hout & ->).
    assert (hook_calls (EvFailureHandler request e out ::
              match out with
              | Returned _ => []
              | Thrown err => [EvConsoleError "Error within .failed() handler:" err]
              end) = [EvFailureHandler request e out]) as ->.
    { by destruct out. }
    split; [simpl; lia|]. split; [|split].
    + intros ? ? ? ? ? ? Heq _. inversion Heq; subst. discriminate.
    + intros e' st' Heq _. inversion Heq; subst. split; [done|].
      intros _ _. by exists out.
    + intros _. by exists e, st1.
  - destruct Hlogged as [-> _]. simpl.
    split; [lia|]. split; [|split].
    + intros ? ? ? ? ? ? Heq _. inversion Heq; subst. discriminate.
    + intros e' st' Heq _. inversion Heq; subst. split; [done|]. done.
    + done.
Qed.

(** C8. When an unclassified error reaches the outer [catch] and a failure
    hook is installed, the response is the generic 500 response whatever the
    hook did; when the hook throws, its error is caught and logged, the route
    handler returns, and the response is the one a returning hook leads to. *)
Theorem C8_failing_hook_is_contained this method handler request routeCtx st
    (e : JsVal) st1 (hook : FailureHandler W) (out : Outcome unit) (w2 : W) :
  try_block this method handler request routeCtx st = (Thrown e, st1) ->
  unclassified e = true ->
  failureHandler this = Some hook ->
  hook request e (world st1) = (out, w2) ->
  fst (createRouteHandler this method handler request routeCtx st)
    = Returned internal_error_response /\
  (forall err, out = Thrown err ->
     createRouteHandler this method handler request routeCtx st =
       (Returned internal_error_response,
        {| world := w2;
           trace := trace st1 ++
             [EvFailureHandler request e (Thrown err);
              EvConsoleError "Error within .failed() handler:" err;
              EvConsoleError "Unhandled API error:" e] |})).
Proof.
  intros Htry Hun Hhook Hout. unfold createRouteHandler.
  rewrite (try_catch_thrown _ _ _ _ _ Htry).
  destruct (catch_block_unclassified_run this request e st1 Hun)
    as (w' & logged & Hrun & Hlogged).
  rewrite Hhook in Hlogged. destruct Hlogged as (out' & Hout' & ->).
  rewrite Hout in Hout'. inversion Hout'; subst out' w'.
  rewrite Hrun. split; [done|].
  intros err ->. simpl. done.
Qed.

(** C9, as amended. When the handler returns: a result that is a
    [NextResponse] is the route handler's result as it is; any other result
    that has a JSON text is encoded with status 201 when the method is POST
    and with status 200 for every other method. A result that has none
    ([undefined]) makes [NextResponse.json] throw a [TypeError] inside the
    [try] block, after the handler call: the outer [catch] takes it for an
    unclassified error, calls the failure hook with it when there is one, and
    the response is the generic 500 response. *)
Theorem C9_success_response this method handler request routeCtx st
    (inputBase : InputBase W) st1 (cumulativeCtx : gmap string JsVal) st2
    (result : JsVal) (w3 : W) :
  validation this method request routeCtx st = (Returned inputBase, st1) ->
  run_middlewares 0 (middlewares this) inputBase ∅ st1 = (Returned cumulativeCtx, st2) ->
  handler (with_ctx inputBase cumulativeCtx) (world st2) = (Returned result, w3) ->
  let response := fst (createRouteHandler this method handler request routeCtx st) in
  (instanceof_NextResponse result = true -> response = Returned result) /\
  (instanceof_NextResponse result = false -> json_encodable result = true ->
     method = POST -> response = Returned (VNextResponse 201 result)) /\
  (instanceof_NextResponse result = false -> json_encodable result = true ->
     method <> POST -> response = Returned (VNextResponse 200 result)) /\
  (instanceof_NextResponse result = false -> json_encodable result = false ->
     let st3 :=
       {| world := w3;
          trace := trace st2 ++
            [EvHandler (with_ctx inputBase cumulativeCtx) (Returned result)] |} in
     try_block this method handler request routeCtx st = (Thrown type_error, st3) /\
     response = Returned internal_error_response /\
     forall hook, failureHandler this = Some hook ->
       exists (out : Outcome unit) (w4 : W),
         hook request type_error w3 = (out, w4) /\
         EvFailureHandler request type_error out
           ∈ trace (snd (createRouteHandler this method handler request routeCtx st))).
Proof.
  intros Hv Hm Hh response.
  assert (try_block this method handler request routeCtx st =
            (respond method result,
             {| world := w3;
                trace := trace st2 ++
                  [EvHandler (with_ctx inputBase cumulativeCtx) (Returned result)] |}))
    as Htry.
  { unfold try_block.
    rewrite (bind_returned _ _ _ _ _ Hv), (bind_returned _ _ _ _ _ Hm).
    unfold handle, bind, await_logged, settle. by rewrite Hh. }
  unfold response, createRouteHandler, try_catch. rewrite Htry.
  unfold respond. split; [by intros ->|].
  split; [|split].
  - intros -> Henc ->. by rewrite NextResponse_json_valid.
  - intros -> Henc Hmethod. rewrite decide_False by done.
    by rewrite NextResponse_json_valid.
  - intros -> Henc. cbv zeta.
    assert (NextResponse_json result (if decide (method = POST) then 201 else 200)
            = Thrown type_error) as ->.
    { unfold NextResponse_json. by rewrite Henc. }
    split; [done|].
    destruct (catch_block_unclassified_run this request type_error
                {| world := w3;
                   trace := trace st2 ++
                     [EvHandler (with_ctx inputBase cumulativeCtx) (Returned result)] |}
                eq_refl) as (w' & logged & -> & Hlogged).
    split; [done|]. intros hook Hhook. rewrite Hhook in Hlogged.
    destruct Hlogged as (out & Hout & ->). exists out, w'. split; [done|].
    simpl. set_solver.
Qed.

(** C10. The outer [catch] tests for a platform signal before it tests for an
    [ApiError]: a thrown object whose [digest] property is a string that
    starts with "NEXT_" is thrown again, unchanged and with nothing logged,
    also when the object is an [ApiError]; the route handler then throws it
    too, and such an [ApiError] is not answered with its own
    [{message, type, issues}] response. *)
Theorem C10_signal_test_precedes_classification this request (e : JsVal)
    (digest : string) st :
  get_prop e "digest" = Some (VStr digest) ->
  startsWith "NEXT_" digest = true ->
  catch_block this request e st = (Thrown e, st) /\
  (forall method handler routeCtx st0,
      try_block this method handler request routeCtx st0 = (Thrown e, st) ->
      createRouteHandler this method handler request routeCtx st0 = (Thrown e, st)) /\
  (forall code type message issues extra,
      e = VApiError code type message issues extra ->
      fst (catch_block this request e st)
        <> Returned (api_error_response code type message issues)).
Proof.
  intros Hdigest Hprefix.
  assert (isNextJsInternalError e = true) as Hsignal
      by (apply isNextJsInternalError_spec; eauto).
  split; [by apply catch_block_signal|]. split.
  - intros method handler routeCtx st0 Htry. unfold createRouteHandler.
    rewrite (try_catch_thrown _ _ _ _ _ Htry). by apply catch_block_signal.
  - intros code type message issues extra _.
    by rewrite (catch_block_signal _ _ _ _ Hsignal).
Qed.

End Claims.

(** ** The claims at the sample application *)

(** C1 (the code departs from the claim). A POST whose payload parses and
    whose body schema rejects it is answered 400 INVALID_BODY with no issues:
    the validation error is thrown inside the [try] that guards [req.json()]
    and is replaced there. The same rejection by the context schema is
    answered 400 VALIDATION_ERROR with the schema's issues. *)
Lemma C1_body_rejection_is_masked :
  createRouteHandler (Sample.with_body (Sample.rejecting "body")) POST Sample.handler
      Sample.request Sample.routeCtx Sample.start
    = (Returned (api_error_response 400 "INVALID_BODY" "Invalid JSON body provided." None),
       {| world := ["params"; "json"; "body"]; trace := [] |}) /\
  createRouteHandler (Sample.with_context (Sample.rejecting "context")) POST Sample.handler
      Sample.request Sample.routeCtx Sample.start
    = (Returned (api_error_response 400 "VALIDATION_ERROR" "Invalid input."
                   (Some [Sample.issue])),
       {| world := ["params"; "context"]; trace := [] |}).
Proof. split; reflexivity. Qed.

(** C2 fails as stated. A GET on a builder with a body schema and no other
    schema: the handler gets the raw route parameters and the raw query
    object, not [undefined], and it gets [undefined] as [body], which is no
    output of the body schema. *)
Lemma C2_counterexample :
  contextSchema (Sample.with_body (Sample.accepting "body")) = None /\
  querySchema (Sample.with_body (Sample.accepting "body")) = None /\
  bodySchema (Sample.with_body (Sample.accepting "body")) = Some (Sample.accepting "body") /\
  createRouteHandler (Sample.with_body (Sample.accepting "body")) GET Sample.handler
      Sample.request Sample.routeCtx Sample.start
    = (Returned (VNextResponse 200 (VStr "done")),
       {| world := ["params"; "handler"];
          trace := [EvHandler (with_ctx Sample.unvalidated_input ∅)
                              (Returned (VStr "done"))] |}) /\
  base_context Sample.unvalidated_input = Sample.route_params /\
  Sample.route_params <> VUndefined /\
  base_query Sample.unvalidated_input = Sample.query_object /\
  Sample.query_object <> VUndefined /\
  base_body Sample.unvalidated_input = VUndefined /\
  (forall data w,
      fst (safeParseAsync (Sample.accepting "body") data w)
        <> Returned (ParseSuccess VUndefined)).
Proof.
  repeat split; try reflexivity; try discriminate.
Qed.

(** C2 at a POST with all three schemas configured. *)
Lemma C2_witness :
  (exists (raw : JsVal) (w1 w2 w3 : Sample.World),
      params Sample.routeCtx [] = (Returned raw, w1) /\
      safeParseAsync (Sample.accepting "context") raw w1
        = (Returned (ParseSuccess (base_context Sample.validated_input)), w2) /\
      safeParseAsync (Sample.accepting "query")
          (fromEntries (searchParams Sample.request)) w2
        = (Returned (ParseSuccess (base_query Sample.validated_input)), w3) /\
      exists (parsed : JsVal) (w4 : Sample.World),
        json Sample.request w3 = (Returned parsed, w4) /\
        safeParseAsync (Sample.accepting "body") parsed w4
          = (Returned (ParseSuccess (base_body Sample.validated_input)),
             ["params"; "context"; "query"; "json"; "body"])) /\
  (exists evs : list (Event Sample.World),
      trace (snd (try_block Sample.configured POST Sample.handler
                    Sample.request Sample.routeCtx Sample.start))
        = [] ++ evs /\
      forall ev, ev ∈ evs ->
        exists input : HandlerInput Sample.World,
          event_input ev = Some input /\
          input_context input = base_context Sample.validated_input /\
          input_query input = base_query Sample.validated_input /\
          input_body input = base_body Sample.validated_input /\
          req input = Sample.request).
Proof.
  apply (C2_validated_fields Sample.configured POST Sample.handler
           Sample.request Sample.routeCtx Sample.start Sample.validated_input
           {| world := ["params"; "context"; "query"; "json"; "body"]; trace := [] |}).
  reflexivity.
Defined.

(** The sample steps leave [ctx] as they got it. *)
Lemma step_steady (name : string) (out : gmap string JsVal) :
  steady (Sample.step name out).
Proof. intros input w w' r H. by inversion H. Qed.

Lemma promote_steady : steady Sample.promote.
Proof.
  intros input w w' r. unfold Sample.promote.
  repeat case_match; apply step_steady.
Qed.

Lemma blocked_steady : steady Sample.blocked.
Proof. intros input w w' r H. inversion H. Qed.

(** C3 fails as stated. The second of two steps deletes [user] from the
    [ctx] it is handed and returns nothing: the handler's [ctx] has no [user],
    while the merge of what the two steps returned has it. *)
Lemma C3_counterexample :
  createRouteHandler (Sample.with_steps [Sample.auth; Sample.forgetful]) GET
      Sample.handler Sample.request Sample.routeCtx Sample.start
    = (Returned (VNextResponse 200 (VStr "done")),
       {| world := ["params"; "auth"; "forgetful"; "handler"];
          trace :=
            [EvMiddleware 0 (with_ctx Sample.unvalidated_input ∅)
               (Returned {| returned := {[ "user" := VStr "ann"; "role" := VStr "guest" ]};
                            ctx_after := ∅ |});
             EvMiddleware 1
               (with_ctx Sample.unvalidated_input
                  {[ "user" := VStr "ann"; "role" := VStr "guest" ]})
               (Returned {| returned := ∅;
                            ctx_after := {[ "role" := VStr "guest" ]} |});
             EvHandler
               (with_ctx Sample.unvalidated_input {[ "role" := VStr "guest" ]})
               (Returned (VStr "done"))] |}) /\
  merge_ltr [{[ "user" := VStr "ann"; "role" := VStr "guest" ]}; ∅] !! "user"
    = Some (VStr "ann") /\
  ctx (with_ctx Sample.unvalidated_input {[ "role" := VStr "guest" ]}) !! "user"
    = (None : option JsVal).
Proof. split; [|split]; reflexivity. Qed.

(** C3 at a GET through three steps, the third of which throws. *)
Lemma C3_witness :
  exists (outs : list (gmap string JsVal)) (ws : list Sample.World) (wl : Sample.World)
         (evs : list (Event Sample.World)),
    length ws = S (length outs) /\
    ws !! 0%nat = Some ["params"] /\
    last ws = Some wl /\
    length evs = S (length outs) /\
    (forall (j : nat) (o : gmap string JsVal),
        outs !! j = Some o ->
        exists (m : Middleware Sample.World) (input : HandlerInput Sample.World)
               (r : Settled) (w w' : Sample.World),
          [Sample.auth; Sample.promote; Sample.blocked] !! j = Some m /\
          ws !! j = Some w /\ ws !! S j = Some w' /\
          ctx input = merge_ltr (take j outs) /\
          input_context input = Sample.route_params /\
          input_query input = Sample.query_object /\
          input_body input = VUndefined /\
          req input = Sample.request /\
          m input w = (Returned r, w') /\ returned r = o /\
          evs !! j = Some (EvMiddleware j input (Returned r))) /\
    (forall j : nat, LaterWins (take j outs) (merge_ltr (take j outs))) /\
    ((length outs = 3%nat /\
      exists (input : HandlerInput Sample.World) (result : Outcome JsVal)
             (w' : Sample.World),
        ctx input = merge_ltr outs /\
        input_context input = Sample.route_params /\
        input_query input = Sample.query_object /\
        input_body input = VUndefined /\
        req input = Sample.request /\
        Sample.handler input wl = (result, w') /\
        evs !! length outs = Some (EvHandler input result) /\
        snd (try_block (Sample.with_steps [Sample.auth; Sample.promote; Sample.blocked])
               GET Sample.handler Sample.request Sample.routeCtx Sample.start) =
          {| world := w'; trace := [] ++ evs |})
     \/
     (exists (m : Middleware Sample.World) (input : HandlerInput Sample.World)
             (e : JsVal) (w' : Sample.World),
        [Sample.auth; Sample.promote; Sample.blocked] !! length outs = Some m /\
        ctx input = merge_ltr outs /\
        input_context input = Sample.route_params /\
        input_query input = Sample.query_object /\
        input_body input = VUndefined /\
        req input = Sample.request /\
        m input wl = (Thrown e, w') /\
        evs !! length outs = Some (EvMiddleware (length outs) input (Thrown e)) /\
        let st2 := {| world := w'; trace := [] ++ evs |} in
        try_block (Sample.with_steps [Sample.auth; Sample.promote; Sample.blocked])
            GET Sample.handler Sample.request Sample.routeCtx Sample.start
          = (Thrown e, st2) /\
        createRouteHandler (Sample.with_steps [Sample.auth; Sample.promote; Sample.blocked])
            GET Sample.handler Sample.request Sample.routeCtx Sample.start
          = catch_block (Sample.with_steps [Sample.auth; Sample.promote; Sample.blocked])
              Sample.request e st2)).
Proof.
  apply (C3_middleware_chain
           (Sample.with_steps [Sample.auth; Sample.promote; Sample.blocked])
           GET Sample.handler Sample.request Sample.routeCtx Sample.start
           Sample.unvalidated_input {| world := ["params"]; trace := [] |}).
  - reflexivity.
  - repeat constructor.
    + apply step_steady.
    + apply promote_steady.
    + apply blocked_steady.
Defined.

(** C4 at [createApiHandler().context(A)]. *)
Lemma C4_witness :
  exists (new : loc) (h' : Heap Sample.World),
    call (CallContext (Sample.accepting "A")) Sample.first_builder Sample.first_heap
      = Some (new, h') /\
    objects Sample.first_heap !! new = None /\
    read_this h' new = Some (changed (CallContext (Sample.accepting "A")) Sample.bare) /\
    (forall l o, objects Sample.first_heap !! l = Some o -> objects h' !! l = Some o) /\
    (forall l a, arrays Sample.first_heap !! l = Some a -> arrays h' !! l = Some a) /\
    (forall l f method handler,
        read_this Sample.first_heap l = Some f ->
        route_handler h' l method handler
          = route_handler Sample.first_heap l method handler) /\
    (forall c2 : ConfigCall Sample.World,
        exists (new2 : loc) (h'' : Heap Sample.World),
          call c2 Sample.first_builder h' = Some (new2, h'') /\
          new2 <> new /\
          forall method handler,
            route_handler h'' new method handler
              = Some (createRouteHandler
                        (changed (CallContext (Sample.accepting "A")) Sample.bare)
                        method handler) /\
            route_handler h'' new2 method handler
              = Some (createRouteHandler (changed c2 Sample.bare) method handler) /\
            route_handler h'' Sample.first_builder method handler
              = Some (createRouteHandler Sample.bare method handler)).
Proof.
  apply (C4_configuration_is_persistent Sample.first_heap Sample.first_builder
           Sample.bare (CallContext (Sample.accepting "A"))).
  reflexivity.
Defined.

(** C5 at a request whose [json()] throws a [SyntaxError]: a PUT with a body
    schema, and a PATCH without one, where the handler runs. *)
Lemma C5_witness :
  (validation (Sample.with_body (Sample.accepting "body")) PUT
       Sample.request_without_json Sample.routeCtx Sample.start
     = (Thrown (new_ApiError {| code := Some 400;
                                type := Some "INVALID_BODY";
                                message := "Invalid JSON body provided.";
                                issues := None |}),
        {| world := ["params"; "json"]; trace := [] |}) /\
   createRouteHandler (Sample.with_body (Sample.accepting "body")) PUT Sample.handler
       Sample.request_without_json Sample.routeCtx Sample.start
     = (Returned (api_error_response 400 "INVALID_BODY"
                    "Invalid JSON body provided." None),
        {| world := ["params"; "json"]; trace := [] |})) /\
  (validation Sample.bare PATCH Sample.request_without_json Sample.routeCtx Sample.start
     = (Returned {| base_context := Sample.route_params;
                    base_query := VObj [];
                    base_body := VUndefined;
                    base_req := Sample.request_without_json |},
        {| world := ["params"; "json"]; trace := [] |}) /\
   createRouteHandler Sample.bare PATCH Sample.handler
       Sample.request_without_json Sample.routeCtx Sample.start
     = (Returned (VNextResponse 200 (VStr "done")),
        {| world := ["params"; "json"; "handler"];
           trace := [EvHandler
                       (with_ctx {| base_context := Sample.route_params;
                                    base_query := VObj [];
                                    base_body := VUndefined;
                                    base_req := Sample.request_without_json |} ∅)
                       (Returned (VStr "done"))] |})).
Proof.
  split.
  - apply (C5_unparsable_payload (Sample.with_body (Sample.accepting "body")) PUT
             Sample.handler Sample.request_without_json Sample.routeCtx Sample.start
             Sample.route_params (VObj []) {| world := ["params"]; trace := [] |}
             Sample.syntax_error ["params"; "json"]).
    + repeat constructor.
    + reflexivity.
    + reflexivity.
  - pose proof (C5_unparsable_payload Sample.bare PATCH
                  Sample.handler Sample.request_without_json Sample.routeCtx Sample.start
                  Sample.route_params (VObj []) {| world := ["params"]; trace := [] |}
                  Sample.syntax_error ["params"; "json"]) as H.
    destruct H as [Hvalidation Hhandler].
    + repeat constructor.
    + reflexivity.
    + reflexivity.
    + split; [exact Hvalidation|]. rewrite Hhandler. reflexivity.
Defined.

(** C6 fails as stated. An [ApiError] that carries a "NEXT_" digest, thrown
    by the handler, is thrown on by the route handler: there is no response.
    And an [ApiError] whose code is 99, thrown by the handler, gets no
    response either: [NextResponse.json] refuses the status and the route
    handler throws the [RangeError]. *)
Lemma C6_counterexample :
  instanceof_ApiError Sample.redirecting_api_error = true /\
  try_block Sample.bare GET (Sample.failing_handler Sample.redirecting_api_error)
      Sample.request Sample.routeCtx Sample.start
    = (Thrown Sample.redirecting_api_error,
       {| world := ["params"; "handler"];
          trace := [EvHandler (with_ctx Sample.unvalidated_input ∅)
                              (Thrown Sample.redirecting_api_error)] |}) /\
  fst (createRouteHandler Sample.bare GET
         (Sample.failing_handler Sample.redirecting_api_error)
         Sample.request Sample.routeCtx Sample.start)
    = Thrown Sample.redirecting_api_error /\
  fst (createRouteHandler Sample.bare GET
         (Sample.failing_handler Sample.redirecting_api_error)
         Sample.request Sample.routeCtx Sample.start)
    <> Returned (api_error_response 401 "UNAUTHORIZED" "Sign in first." None) /\
  new_ApiError Sample.odd_code = VApiError 99 "INTERNAL_SERVER_ERROR" "Odd." None [] /\
  isNextJsInternalError (new_ApiError Sample.odd_code) = false /\
  createRouteHandler Sample.bare GET
      (Sample.failing_handler (new_ApiError Sample.odd_code))
      Sample.request Sample.routeCtx Sample.start
    = (Thrown range_error,
       {| world := ["params"; "handler"];
          trace := [EvHandler (with_ctx Sample.unvalidated_input ∅)
                              (Thrown (new_ApiError Sample.odd_code))] |}).
Proof.
  repeat split; try reflexivity. discriminate.
Qed.

(** C7 (the code departs from the claim). A platform signal thrown while the
    body is validated is caught by the [try] that guards [req.json()]: the
    route handler does not throw it but answers 400 INVALID_BODY. The same
    signal thrown while the route parameters are validated is thrown on. *)
Lemma C7_signal_in_body_validation_is_swallowed :
  isNextJsInternalError Sample.not_found = true /\
  createRouteHandler (Sample.with_body (Sample.signalling "body")) POST Sample.handler
      Sample.request Sample.routeCtx Sample.start
    = (Returned (api_error_response 400 "INVALID_BODY" "Invalid JSON body provided." None),
       {| world := ["params"; "json"; "body"]; trace := [] |}) /\
  createRouteHandler (Sample.with_context (Sample.signalling "context")) POST Sample.handler
      Sample.request Sample.routeCtx Sample.start
    = (Thrown Sample.not_found, {| world := ["params"; "context"]; trace := [] |}).
Proof. split; [|split]; reflexivity. Qed.

(** C8 at a hook that throws, after the handler of a GET threw a plain error. *)
Lemma C8_witness :
  createRouteHandler (Sample.with_hook Sample.failing_hook) GET
      (Sample.failing_handler Sample.plain_error)
      Sample.request Sample.routeCtx Sample.start
    = (Returned internal_error_response,
       {| world := ["params"; "handler"; "hook"];
          trace :=
            [EvHandler
               (with_ctx {| base_context := Sample.route_params;
                            base_query := VObj [("page", VStr "2"); ("sort", VStr "asc")];
                            base_body := VUndefined;
                            base_req := Sample.request |} ∅)
               (Thrown Sample.plain_error);
             EvFailureHandler Sample.request Sample.plain_error (Thrown Sample.plain_error);
             EvConsoleError "Error within .failed() handler:" Sample.plain_error;
             EvConsoleError "Unhandled API error:" Sample.plain_error] |}).
Proof.
  edestruct (C8_failing_hook_is_contained
               (Sample.with_hook Sample.failing_hook) GET
               (Sample.failing_handler Sample.plain_error)
               Sample.request Sample.routeCtx Sample.start Sample.plain_error)
    as [_ Hthrown]; [reflexivity | reflexivity | reflexivity | reflexivity |].
  exact (Hthrown Sample.plain_error eq_refl).
Defined.

(** C9 fails as stated. A DELETE whose handler returns nothing: the result is
    no [NextResponse], and it is not encoded with status 200. The [TypeError]
    of [NextResponse.json] goes to the failure hook and the response is the
    generic 500 response. *)
Lemma C9_counterexample :
  Sample.void_handler (with_ctx Sample.unvalidated_input ∅) ["params"]
    = (Returned VUndefined, ["params"; "handler"]) /\
  instanceof_NextResponse VUndefined = false /\
  createRouteHandler (Sample.with_hook Sample.hook) DELETE Sample.void_handler
      Sample.request Sample.routeCtx Sample.start
    = (Returned internal_error_response,
       {| world := ["params"; "handler"; "hook"];
          trace :=
            [EvHandler (with_ctx Sample.unvalidated_input ∅) (Returned VUndefined);
             EvFailureHandler Sample.request type_error (Returned tt);
             EvConsoleError "Unhandled API error:" type_error] |}) /\
  internal_error_response <> VNextResponse 200 VUndefined.
Proof. repeat split; try reflexivity. discriminate. Qed.

(** C9 at a POST and a DELETE whose handler returns a string, at a POST whose
    handler returns a response of its own, and at a DELETE whose handler
    returns nothing. *)
Lemma C9_witness :
  fst (createRouteHandler Sample.bare POST Sample.handler
         Sample.request Sample.routeCtx Sample.start)
    = Returned (VNextResponse 201 (VStr "done")) /\
  fst (createRouteHandler Sample.bare DELETE Sample.handler
         Sample.request Sample.routeCtx Sample.start)
    = Returned (VNextResponse 200 (VStr "done")) /\
  fst (createRouteHandler Sample.bare POST Sample.responding_handler
         Sample.request Sample.routeCtx Sample.start)
    = Returned (VNextResponse 202 (VStr "queued")) /\
  (try_block (Sample.with_hook Sample.hook) DELETE Sample.void_handler
       Sample.request Sample.routeCtx Sample.start
     = (Thrown type_error,
        {| world := ["params"; "handler"];
           trace := [] ++ [EvHandler (with_ctx Sample.unvalidated_input ∅)
                                     (Returned VUndefined)] |}) /\
   fst (createRouteHandler (Sample.with_hook Sample.hook) DELETE Sample.void_handler
          Sample.request Sample.routeCtx Sample.start)
     = Returned internal_error_response /\
   forall hook, Some Sample.hook = Some hook ->
     exists (out : Outcome unit) (w4 : Sample.World),
       hook Sample.request type_error ["params"; "handler"] = (out, w4) /\
       EvFailureHandler Sample.request type_error out
         ∈ trace (snd (createRouteHandler (Sample.with_hook Sample.hook) DELETE
                         Sample.void_handler Sample.request Sample.routeCtx
                         Sample.start))).
Proof.
  split; [|split; [|split]].
  - edestruct (C9_success_response Sample.bare POST Sample.handler
                 Sample.request Sample.routeCtx Sample.start)
      as (_ & Hpost & _); [reflexivity | reflexivity | reflexivity |].
    exact (Hpost eq_refl eq_refl eq_refl).
  - edestruct (C9_success_response Sample.bare DELETE Sample.handler
                 Sample.request Sample.routeCtx Sample.start)
      as (_ & _ & Hother & _); [reflexivity | reflexivity | reflexivity |].
    apply (Hother eq_refl eq_refl). discriminate.
  - edestruct (C9_success_response Sample.bare POST Sample.responding_handler
                 Sample.request Sample.routeCtx Sample.start)
      as (Hresponse & _); [reflexivity | reflexivity | reflexivity |].
    exact (Hresponse eq_refl).
  - edestruct (C9_success_response (Sample.with_hook Sample.hook) DELETE
                 Sample.void_handler Sample.request Sample.routeCtx Sample.start)
      as (_ & _ & _ & Hvoid); [reflexivity | reflexivity | reflexivity |].
    exact (Hvoid eq_refl eq_refl).
Defined.

(** C10 at an [ApiError] that carries a redirect digest, thrown by the handler
    of a GET. *)
Lemma C10_witness :
  catch_block Sample.bare Sample.request Sample.redirecting_api_error Sample.start
    = (Thrown Sample.redirecting_api_error, Sample.start) /\
  createRouteHandler Sample.bare GET
      (Sample.failing_handler Sample.redirecting_api_error)
      Sample.request Sample.routeCtx Sample.start
    = (Thrown Sample.redirecting_api_error,
       {| world := ["params"; "handler"];
          trace := [EvHandler
                      (with_ctx {| base_context := Sample.route_params;
                                   base_query := VObj [("page", VStr "2"); ("sort", VStr "asc")];
                                   base_body := VUndefined;
                                   base_req := Sample.request |} ∅)
                      (Thrown Sample.redirecting_api_error)] |}).
Proof.
  pose proof (C10_signal_test_precedes_classification
                Sample.bare Sample.request Sample.redirecting_api_error
                "NEXT_REDIRECT;replace;/login;307;") as H.
  split.
  - apply (H Sample.start); reflexivity.
  - eapply H; reflexivity.
Defined.

(** ** The sample application, run *)

(** Two steps and the handler: [promote] sees what [auth] returned, and the
    handler sees [role] as [promote] left it. *)
Example sample_chain :
  createRouteHandler (Sample.with_steps [Sample.auth; Sample.promote]) GET Sample.handler
      Sample.request Sample.routeCtx Sample.start
    = (Returned (VNextResponse 200 (VStr "done")),
       {| world := ["params"; "auth"; "promote"; "handler"];
          trace :=
            [EvMiddleware 0 (with_ctx Sample.unvalidated_input ∅)
               (Returned {| returned := {[ "user" := VStr "ann"; "role" := VStr "guest" ]};
                            ctx_after := ∅ |});
             EvMiddleware 1
               (with_ctx Sample.unvalidated_input
                  {[ "user" := VStr "ann"; "role" := VStr "guest" ]})
               (Returned {| returned := {[ "role" := VStr "admin" ]};
                            ctx_after :=
                              {[ "user" := VStr "ann"; "role" := VStr "guest" ]} |});
             EvHandler
               (with_ctx Sample.unvalidated_input
                  {[ "user" := VStr "ann"; "role" := VStr "admin" ]})
               (Returned (VStr "done"))] |}).
Proof. reflexivity. Qed.

(** A step that throws an [ApiError]: the handler is not called, the hook is
    not called, and the response is the error's. *)
Example sample_blocked :
  createRouteHandler
      {| contextSchema := None; querySchema := None; bodySchema := None;
         middlewares := [Sample.auth; Sample.blocked; Sample.promote];
         failureHandler := Some Sample.hook |}
      GET Sample.handler Sample.request Sample.routeCtx Sample.start
    = (Returned (api_error_response 401 "UNAUTHORIZED" "Not authenticated." None),
       {| world := ["params"; "auth"; "blocked"];
          trace :=
            [EvMiddleware 0 (with_ctx Sample.unvalidated_input ∅)
               (Returned {| returned := {[ "user" := VStr "ann"; "role" := VStr "guest" ]};
                            ctx_after := ∅ |});
             EvMiddleware 1
               (with_ctx Sample.unvalidated_input
                  {[ "user" := VStr "ann"; "role" := VStr "guest" ]})
               (Thrown Sample.unauthorized)] |}).
Proof. reflexivity. Qed.

(** Two branches of one base builder, in one heap. *)
Example sample_branches :
  let base := Sample.first_builder in
  let h0 := Sample.first_heap in
  exists a hA b hB,
    ApiBuilder.context base (Sample.accepting "A") h0 = Some (a, hA) /\
    ApiBuilder.context base (Sample.rejecting "B") hA = Some (b, hB) /\
    a <> b /\ a <> base /\ b <> base /\
    read_this hB base = Some Sample.bare /\
    read_this hB a = Some (Sample.with_context (Sample.accepting "A")) /\
    read_this hB b = Some (Sample.with_context (Sample.rejecting "B")).
Proof.
  eexists _, _, _, _. repeat split; try reflexivity; discriminate.
Qed.

(** ** Further properties of the code *)

(** *** The query object *)

Lemma prop_lookup_set (k k' : string) (v : JsVal) (ps : list (string * JsVal)) :
  prop_lookup k (prop_set k' v ps) =
    if String.eqb k k' then Some v else prop_lookup k ps.
Proof.
  induction ps as [|[k2 v2] ps IH]; simpl; [done|].
  destruct (String.eqb k' k2) eqn:E1; simpl.
  - apply String.eqb_eq in E1 as ->. by destruct (String.eqb k k2).
  - rewrite IH. destruct (String.eqb k k2) eqn:E2, (String.eqb k k') eqn:E3; try done.
    apply String.eqb_eq in E2 as ->. apply String.eqb_eq in E3 as ->.
    by rewrite String.eqb_refl in E1.
Qed.

Lemma prop_set_keys (k k0 : string) (v : JsVal) (ps : list (string * JsVal)) :
  k0 ∈ (prop_set k v ps).*1 -> k0 = k \/ k0 ∈ ps.*1.
Proof.
  induction ps as [|[k2 v2] ps IH]; simpl.
  - intros H. apply list_elem_of_singleton in H. by left.
  - destruct (String.eqb k k2) eqn:E; simpl; intros H.
    + apply String.eqb_eq in E as ->. by right.
    + apply elem_of_cons in H as [->|H]; [right; by left|].
      destruct (IH H) as [->|?]; [by left|right; by right].
Qed.

Lemma prop_set_NoDup (k : string) (v : JsVal) (ps : list (string * JsVal)) :
  NoDup ps.*1 -> NoDup (prop_set k v ps).*1.
Proof.
  induction ps as [|[k2 v2] ps IH]; simpl; intros Hnd.
  - apply NoDup_singleton.
  - apply NoDup_cons in Hnd as [Hnotin Hnd].
    destruct (String.eqb k k2) eqn:E; simpl.
    + apply String.eqb_eq in E as ->. by apply NoDup_cons.
    + apply NoDup_cons. split; [|by apply IH].
      intros Hin. apply prop_set_keys in Hin as [->|Hin]; [|done].
      by rewrite String.eqb_refl in E.
Qed.

Lemma fromEntries_fold (k : string) (entries : list (string * string)) :
  forall acc : list (string * JsVal),
    prop_lookup k
      (fold_left (fun acc e => prop_set (fst e) (VStr (snd e)) acc) entries acc) =
    match last_value k entries with
    | Some v => Some (VStr v)
    | None => prop_lookup k acc
    end.
Proof.
  induction entries as [|[k' v] rest IH]; intros acc; simpl; [done|].
  rewrite IH. destruct (last_value k rest); [done|].
  rewrite prop_lookup_set. by destruct (String.eqb k k').
Qed.

Lemma fromEntries_fold_NoDup (entries : list (string * string)) :
  forall acc : list (string * JsVal),
    NoDup acc.*1 ->
    NoDup (fold_left (fun acc e => prop_set (fst e) (VStr (snd e)) acc) entries acc).*1.
Proof.
  induction entries as [|[k' v] rest IH]; intros acc Hnd; simpl; [done|].
  by apply IH, prop_set_NoDup.
Qed.

(** X1. The object built from the search parameters has every parameter name
    once, and under each name the value of the last parameter of that name;
    a name that no parameter has is absent. *)
Theorem X1_query_object_keeps_last_value (entries : list (string * string)) :
  (forall k : string,
      get_prop (fromEntries entries) k = VStr <$> last_value k entries) /\
  NoDup (props_of (fromEntries entries)).*1.
Proof.
  split.
  - intros k. unfold get_prop, fromEntries. simpl. rewrite fromEntries_fold.
    by destruct (last_value k entries).
  - unfold fromEntries. simpl. apply fromEntries_fold_NoDup. constructor.
Qed.

Section Coverage.

Context {W : Type}.
Implicit Types (st : State W) (this : Fields W (list (Middleware W))).
Implicit Types (handler : Handler W) (request : NextRequest W) (routeCtx : RouteCtx W).

(** *** Rejections by the context and the query schema *)

(** X2. When the context schema rejects the route parameters, the response is
    400 VALIDATION_ERROR with the schema's issues, for every method; the
    world is the one the schema left and the trace is unchanged: the query
    schema, [req.json()], the middleware, the handler and the hook are not
    reached. *)
Theorem X2_context_rejection this method handler request routeCtx st
    (s : ZodSchema W) (raw : JsVal) (w1 w2 : W) (rejected : list JsVal) :
  contextSchema this = Some s ->
  params routeCtx (world st) = (Returned raw, w1) ->
  safeParseAsync s raw w1 = (Returned (ParseError rejected), w2) ->
  createRouteHandler this method handler request routeCtx st =
    (Returned (api_error_response 400 "VALIDATION_ERROR" "Invalid input." (Some rejected)),
     {| world := w2; trace := trace st |}).
Proof.
  intros Hs Hparams Hparse.
  unfold createRouteHandler, try_catch, try_block, validation, validate_context_query.
  unfold bind at 1 2 3 4. unfold await at 1. rewrite Hparams, Hs. simpl.
  unfold bind, await. simpl. by rewrite Hparse.
Qed.

(** X3. When the route parameters pass and the query schema rejects the query
    object, the response is 400 VALIDATION_ERROR with the issues of the query
    schema; the world is the one that schema left and the trace is unchanged:
    the payload is not read and nothing after validation runs. *)
Theorem X3_query_rejection this method handler request routeCtx st
    (s : ZodSchema W) (raw validatedContext : JsVal) (w1 : W) st2 (w3 : W)
    (rejected : list JsVal) :
  params routeCtx (world st) = (Returned raw, w1) ->
  validate (contextSchema this) raw {| world := w1; trace := trace st |}
    = (Returned validatedContext, st2) ->
  querySchema this = Some s ->
  safeParseAsync s (fromEntries (searchParams request)) (world st2)
    = (Returned (ParseError rejected), w3) ->
  createRouteHandler this method handler request routeCtx st =
    (Returned (api_error_response 400 "VALIDATION_ERROR" "Invalid input." (Some rejected)),
     {| world := w3; trace := trace st |}).
Proof.
  intros Hparams Hcontext Hs Hparse.
  pose proof (validate_trace _ _ _ _ _ Hcontext) as Htrace. simpl in Htrace.
  unfold createRouteHandler, try_catch, try_block, validation, validate_context_query.
  unfold bind at 1 2 3 4. unfold await at 1. rewrite Hparams, Hcontext.
  unfold bind at 1. rewrite Hs. unfold validate, bind, await. rewrite Hparse. simpl.
  by rewrite Htrace.
Qed.

(** *** Fields without a schema, and the body stage *)

(** X4. A field whose schema was never configured carries the raw input:
    [context] is what the route parameters promise resolved to, [query] is
    the object built from the search parameters, and, for POST, PUT and
    PATCH, [body] is what [req.json()] resolved to, or [undefined] when
    [req.json()] threw. *)
Theorem X4_unconfigured_fields_carry_raw_input this method request routeCtx st
    (inputBase : InputBase W) st1 (raw : JsVal) (w1 : W) :
  validation this method request routeCtx st = (Returned inputBase, st1) ->
  params routeCtx (world st) = (Returned raw, w1) ->
  (contextSchema this = None -> base_context inputBase = raw) /\
  (querySchema this = None ->
     base_query inputBase = fromEntries (searchParams request)) /\
  (bodySchema this = None -> method ∈ [POST; PUT; PATCH] ->
     exists (validated : JsVal * JsVal) st2,
       validate_context_query this request routeCtx st = (Returned validated, st2) /\
       match json request (world st2) with
       | (Returned parsed, w4) => base_body inputBase = parsed /\ world st1 = w4
       | (Thrown _, w4) => base_body inputBase = VUndefined /\ world st1 = w4
       end).
Proof.
  intros Hv Hparams. unfold validation in Hv.
  apply bind_inv in Hv as [(cq & st2 & Hcq & Hv)|(e & _ & ?)]; [|done].
  apply bind_inv in Hv as [(vb & st3 & Hb & Hv)|(e & _ & ?)]; [|done].
  inversion Hv; subst; clear Hv. simpl.
  pose proof Hcq as Hcq'. unfold validate_context_query in Hcq.
  apply bind_inv in Hcq as [(raw' & sta & Ha & Hcq)|(e & _ & ?)]; [|done].
  apply await_inv in Ha as (w1' & Hparams' & ->).
  rewrite Hparams in Hparams'. inversion Hparams'; subst raw' w1'.
  apply bind_inv in Hcq as [(vc & stb & Hc & Hcq)|(e & _ & ?)]; [|done].
  apply bind_inv in Hcq as [(vq & stc & Hq & Hcq)|(e & _ & ?)]; [|done].
  inversion Hcq; subst; clear Hcq. simpl.
  apply validate_returned_inv in Hc, Hq.
  split; [|split].
  - intros Hnone. rewrite Hnone in Hc. by destruct Hc.
  - intros Hnone. rewrite Hnone in Hq. by destruct Hq.
  - intros Hnone Hmethod. eexists _, _. split; [exact Hcq'|].
    unfold validate_body in Hb. rewrite bool_decide_eq_true_2 in Hb by done.
    rewrite Hnone in Hb. unfold try_catch, bind, await in Hb.
    destruct (json request (world _)) as [[parsed|e] w4].
    + rewrite validate_no_schema in Hb. by inversion Hb.
    + by inversion Hb.
Qed.

(** X5. With a body schema configured, on POST, PUT and PATCH, once the route
    parameters and the query string have passed: whether [req.json()] throws,
    the body schema throws, or the body schema rejects the payload, the
    response is 400 INVALID_BODY with no issues, and the trace is unchanged
    (no middleware, handler or hook call). *)
Theorem X5_body_stage_errors_become_invalid_body this method handler request
    routeCtx st (s : ZodSchema W) (validatedContext validatedQuery : JsVal) st1
    (e : JsVal) (w2 : W) :
  method ∈ [POST; PUT; PATCH] ->
  bodySchema this = Some s ->
  validate_context_query this request routeCtx st
    = (Returned (validatedContext, validatedQuery), st1) ->
  (json request (world st1) = (Thrown e, w2) \/
   exists (parsed : JsVal) (w' : W),
     json request (world st1) = (Returned parsed, w') /\
     (safeParseAsync s parsed w' = (Thrown e, w2) \/
      exists rejected : list JsVal,
        safeParseAsync s parsed w' = (Returned (ParseError rejected), w2))) ->
  createRouteHandler this method handler request routeCtx st =
    (Returned (api_error_response 400 "INVALID_BODY" "Invalid JSON body provided." None),
     {| world := w2; trace := trace st |}).
Proof.
  intros Hmethod Hs Hcq Hfail.
  pose proof (validate_context_query_trace _ _ _ _ _ _ Hcq) as Htrace.
  assert (validate_body this method request st1 =
            (Thrown (new_ApiError {| code := Some 400;
                                     type := Some "INVALID_BODY";
                                     message := "Invalid JSON body provided.";
                                     issues := None |}),
             {| world := w2; trace := trace st |})) as Hbody.
  { unfold validate_body. rewrite bool_decide_eq_true_2 by done.
    rewrite Hs. unfold try_catch, bind, await, validate, throw.
    destruct Hfail as [Hjson|(parsed & w' & Hjson & [Hparse|[rejected Hparse]])];
      rewrite Hjson; simpl; unfold bind, await; simpl;
      rewrite ?Hparse; simpl; by rewrite Htrace. }
  unfold createRouteHandler, try_block, validation.
  assert ((validated <- validate_context_query this request routeCtx;;
           validatedBody <- validate_body this method request;;
           ret {| base_context := validated.1; base_query := validated.2;
                  base_body := validatedBody; base_req := request |}) st
          = (Thrown (new_ApiError {| code := Some 400;
                                     type := Some "INVALID_BODY";
                                     message := "Invalid JSON body provided.";
                                     issues := None |}),
             {| world := w2; trace := trace st |})) as Hval.
  { rewrite (bind_returned _ _ _ _ _ Hcq).
    by rewrite (bind_thrown _ _ _ _ _ Hbody). }
  rewrite (try_catch_thrown _ _ _ _ _ (bind_thrown _ _ _ _ _ Hval)).
  by apply catch_block_api_error.
Qed.

(** *** What leaves the route handler *)

(** X6. What the route handler throws comes from an error that the [try]
    block threw, and the state is the one the [try] block left: it is that
    error itself, a platform signal, or it is the [RangeError] or [TypeError]
    with which [NextResponse.json] refuses the code of an [ApiError] that is
    no status of a response with a body. Every other error ends in a
    response. *)
Theorem X6_what_the_route_handler_throws this method handler request routeCtx st
    (e : JsVal) st' :
  createRouteHandler this method handler request routeCtx st = (Thrown e, st') ->
  exists e0 : JsVal,
    try_block this method handler request routeCtx st = (Thrown e0, st') /\
    ((e0 = e /\ isNextJsInternalError e = true) \/
     (exists code type message issues extra,
        e0 = VApiError code type message issues extra /\
        isNextJsInternalError e0 = false /\
        valid_status code = false /\
        (e = type_error \/ e = range_error))).
Proof.
  unfold createRouteHandler, try_catch.
  destruct (try_block this method handler request routeCtx st) as [[r|e0] st1];
    [done|].
  destruct (isNextJsInternalError e0) eqn:Hsignal.
  - rewrite (catch_block_signal _ _ _ _ Hsignal). intros Heq.
    inversion Heq; subst. exists e. split; [done|]. by left.
  - destruct (instanceof_ApiError e0) eqn:Hapi.
    + destruct e0 as [| | | | | | |code type message issues extra|]; try discriminate.
      rewrite (catch_block_api_error _ _ _ _ _ _ _ _ Hsignal). intros Heq.
      inversion Heq as [[Hthrown Hst]]. eexists. split; [reflexivity|]. right.
      exists code, type, message, issues, extra.
      split; [done|]. split; [done|]. split.
      * destruct (valid_status code) eqn:Hvalid; [|done].
        by rewrite NextResponse_json_valid in Hthrown.
      * by eapply NextResponse_json_thrown.
    + assert (unclassified e0 = true) as Hun.
      { unfold unclassified. by rewrite Hsignal, Hapi. }
      destruct (catch_block_unclassified_run this request e0 st1 Hun)
        as (w' & logged & -> & _). done.
Qed.

(** X7. Every error that is no platform signal, and that if it is an
    [ApiError] has as its code a status that a response with a body takes,
    ends in a response whose body is an object with a string [message] and a
    string [type]; for an [ApiError] the status is its code; for an error
    that is no [ApiError] the status is 500, the message and the type are the
    fixed ones and the body has no [issues]. *)
Theorem X7_failure_response_shape this method handler request routeCtx st
    (e : JsVal) st1 :
  try_block this method handler request routeCtx st = (Thrown e, st1) ->
  isNextJsInternalError e = false ->
  (forall code type message issues extra,
      e = VApiError code type message issues extra -> valid_status code = true) ->
  exists (status : Z) (payload : JsVal) (message type : string) st',
    createRouteHandler this method handler request routeCtx st
      = (Returned (VNextResponse status payload), st') /\
    get_prop payload "message" = Some (VStr message) /\
    get_prop payload "type" = Some (VStr type) /\
    (forall code type' message' issues extra,
       e = VApiError code type' message' issues extra ->
       status = code /\ message = message' /\ type = type') /\
    (instanceof_ApiError e = false ->
       status = 500 /\
       message = "An internal server error occurred." /\
       type = "INTERNAL_SERVER_ERROR" /\
       get_prop payload "issues" = None).
Proof.
  intros Htry Hsignal Hstatus. unfold createRouteHandler.
  rewrite (try_catch_thrown _ _ _ _ _ Htry).
  destruct (instanceof_ApiError e) eqn:Hapi.
  - destruct e as [| | | | | | |code type message issues extra|]; try discriminate.
    rewrite (catch_block_api_error_valid _ _ _ _ _ _ _ _ Hsignal
               (Hstatus _ _ _ _ _ eq_refl)).
    eexists _, _, _, _, _. split; [reflexivity|].
    split; [done|]. split; [done|]. split; [|done].
    intros ? ? ? ? ? Heq. by inversion Heq.
  - assert (unclassified e = true) as Hun.
    { unfold unclassified. by rewrite Hsignal, Hapi. }
    destruct (catch_block_unclassified_run this request e st1 Hun)
      as (w' & logged & -> & _).
    eexists _, _, _, _, _. split; [reflexivity|].
    split; [done|]. split; [done|]. split; [|done].
    intros ? ? ? ? ? ->. done.
Qed.

(** X8. An error built by [new ApiError(props)] is never taken for a platform
    signal: thrown out of the [try] block, and its code (500 when [props]
    gives none) being a status that a response with a body takes, it is
    answered with its message, its issues, that code and its type
    (INTERNAL_SERVER_ERROR when [props] gives none), and the state is the one
    the [try] block left, so the hook is not called and nothing is logged. *)
Theorem X8_constructed_api_error_is_answered this method handler request routeCtx st
    (props : ApiErrorProps) st1 :
  try_block this method handler request routeCtx st
    = (Thrown (new_ApiError props), st1) ->
  valid_status (default 500 (code props)) = true ->
  isNextJsInternalError (new_ApiError props) = false /\
  createRouteHandler this method handler request routeCtx st =
    (Returned (api_error_response
                 (default 500 (code props))
                 (default "INTERNAL_SERVER_ERROR" (type props))
                 (message props) (issues props)),
     st1).
Proof.
  intros Htry Hvalid. split; [done|]. unfold createRouteHandler.
  rewrite (try_catch_thrown _ _ _ _ _ Htry).
  by apply catch_block_api_error_valid.
Qed.

(** X9. A thrown value that is no [ApiError] and has no [digest] property
    that is a string starting with "NEXT_" (a string, a number, [null],
    [undefined], an object without [digest], an object whose [digest] is not
    a string or has another prefix) is answered with the generic 500
    response. *)
Theorem X9_other_thrown_values_are_internal_errors this method handler request
    routeCtx st (e : JsVal) st1 :
  try_block this method handler request routeCtx st = (Thrown e, st1) ->
  instanceof_ApiError e = false ->
  (forall digest : string,
      get_prop e "digest" = Some (VStr digest) -> startsWith "NEXT_" digest = false) ->
  fst (createRouteHandler this method handler request routeCtx st)
    = Returned internal_error_response.
Proof.
  intros Htry Hapi Hdigest.
  assert (isNextJsInternalError e = false) as Hsignal.
  { destruct (isNextJsInternalError e) eqn:E; [|done].
    apply isNextJsInternalError_spec in E as (digest & Hd & Hp).
    rewrite (Hdigest digest Hd) in Hp. done. }
  assert (unclassified e = true) as Hun.
  { unfold unclassified. by rewrite Hsignal, Hapi. }
  unfold createRouteHandler. rewrite (try_catch_thrown _ _ _ _ _ Htry).
  by destruct (catch_block_unclassified_run this request e st1 Hun)
    as (w' & logged & -> & _).
Qed.

Lemma console_calls_steps (evs : list (Event W)) :
  forallb is_step evs = true -> List.filter is_console evs = [].
Proof.
  induction evs as [|ev evs IH]; [done|]. simpl. intros H.
  apply andb_true_iff in H as [Hev Hevs].
  destruct ev; simpl in *; try done; by apply IH.
Qed.

(** X10. What the route handler logs through [console.error]. An
    unclassified error that leaves the [try] block is logged last, under
    "Unhandled API error:"; before it comes at most the error of a hook that
    threw; without a hook this is the only log entry and the world is left
    as the [try] block left it. When anything was logged, an unclassified
    error had left the [try] block: responses, signals and [ApiError]s are
    never logged. *)
Theorem X10_console_log this method handler request routeCtx st :
  exists evs : list (Event W),
    trace (snd (createRouteHandler this method handler request routeCtx st))
      = trace st ++ evs /\
    (forall e st1,
        try_block this method handler request routeCtx st = (Thrown e, st1) ->
        unclassified e = true ->
        last evs = Some (EvConsoleError "Unhandled API error:" e) /\
        (failureHandler this = None ->
           List.filter is_console evs = [EvConsoleError "Unhandled API error:" e] /\
           world (snd (createRouteHandler this method handler request routeCtx st))
             = world st1) /\
        (forall hook out w',
            failureHandler this = Some hook ->
            hook request e (world st1) = (out, w') ->
            List.filter is_console evs =
              match out with
              | Returned _ => []
              | Thrown err => [EvConsoleError "Error within .failed() handler:" err]
              end ++ [EvConsoleError "Unhandled API error:" e])) /\
    (List.filter is_console evs <> [] ->
     exists e st1,
       try_block this method handler request routeCtx st = (Thrown e, st1) /\
       unclassified e = true).
Proof.
  destruct (try_block_trace this method handler request routeCtx st)
    as (evs0 & Htrace & Hsteps).
  pose proof (console_calls_steps _ Hsteps) as Hnone.
  unfold createRouteHandler, try_catch.
  destruct (try_block this method handler request routeCtx st) as [[r|e] st1] eqn:Htry;
    simpl in Htrace.
  { exists evs0. rewrite Hnone. split; [done|]. split; [done|]. done. }
  destruct (unclassified e) eqn:Hun.
  - destruct (catch_block_unclassified_run this request e st1 Hun)
      as (w' & logged & Hrun & Hlogged).
    rewrite Hrun. simpl.
    exists (evs0 ++ logged ++ [EvConsoleError "Unhandled API error:" e]).
    rewrite Htrace, <- app_assoc. split; [done|].
    rewrite !List.filter_app, Hnone. simpl. split.
    + intros e' st' Heq _. inversion Heq; subst e' st'.
      split; [by rewrite !last_app|].
      destruct (failureHandler this) as [hook|].
      * split; [done|]. intros hook' out w'' Hhook Hout.
        inversion Hhook; subst hook'.
        destruct Hlogged as (out' & Hout' & ->).
        rewrite Hout in Hout'. inversion Hout'; subst out' w''.
        by destruct out.
      * destruct Hlogged as [-> ->]. split; [done|]. done.
    + intros _. by exists e, st1.
  - assert (snd (catch_block this request e st1) = st1) as Hsame.
    { unfold unclassified in Hun. apply andb_false_iff in Hun as [Hun|Hun];
        apply negb_false_iff in Hun.
      - by rewrite (catch_block_signal _ _ _ _ Hun).
      - destruct e; try discriminate.
        unfold catch_block. by destruct (isNextJsInternalError _). }
    rewrite Hsame. exists evs0. rewrite Hnone. split; [done|]. split; [|done].
    intros e' st' Heq Hun'. inversion Heq; subst. congruence.
Qed.

(** *** The five methods *)

(** X11. The route handlers of GET and DELETE do not depend on the body
    schema: two builders that agree on the context schema, the query schema,
    the middleware and the failure hook give the same route handler for GET
    and the same for DELETE, whatever body schema each has. *)
Theorem X11_get_and_delete_ignore_the_body_schema
    (this other : Fields W (list (Middleware W))) handler request routeCtx st :
  contextSchema this = contextSchema other ->
  querySchema this = querySchema other ->
  middlewares this = middlewares other ->
  failureHandler this = failureHandler other ->
  ApiBuilder.get this handler request routeCtx st
    = ApiBuilder.get other handler request routeCtx st /\
  ApiBuilder.delete this handler request routeCtx st
    = ApiBuilder.delete other handler request routeCtx st.
Proof.
  destruct this, other. simpl. intros -> -> -> ->. split; reflexivity.
Qed.

(** X12. PATCH and PUT compile to the same pipeline. POST differs from them
    in one place only: it leaves the same state, and either gives the same
    outcome or the handler returned a value that is no response, which POST
    encodes with status 201 and PUT with status 200. *)
Theorem X12_post_put_patch this handler request routeCtx st :
  ApiBuilder.patch this handler request routeCtx st
    = ApiBuilder.put this handler request routeCtx st /\
  snd (ApiBuilder.post this handler request routeCtx st)
    = snd (ApiBuilder.put this handler request routeCtx st) /\
  (fst (ApiBuilder.post this handler request routeCtx st)
     = fst (ApiBuilder.put this handler request routeCtx st) \/
   exists result : JsVal,
     instanceof_NextResponse result = false /\
     fst (ApiBuilder.post this handler request routeCtx st)
       = Returned (VNextResponse 201 result) /\
     fst (ApiBuilder.put this handler request routeCtx st)
       = Returned (VNextResponse 200 result)).
Proof.
  split; [reflexivity|].
  unfold post, put, createRouteHandler, try_block.
  assert (validation this POST request routeCtx st
          = validation this PUT request routeCtx st) as Hsame by reflexivity.
  destruct (validation this PUT request routeCtx st) as [[inputBase|e] st1] eqn:Hv.
  2: { rewrite (try_catch_thrown _ _ _ _ _ (bind_thrown _ _ _ _ _ Hsame)),
         (try_catch_thrown _ _ _ _ _ (bind_thrown _ _ _ _ _ Hv)).
       split; [done|by left]. }
  unfold try_catch.
  rewrite (bind_returned _ _ _ _ _ Hsame), (bind_returned _ _ _ _ _ Hv).
  destruct (run_middlewares 0 (middlewares this) inputBase ∅ st1)
    as [[c|e] st2] eqn:Hm.
  2: { rewrite !(bind_thrown _ _ _ _ _ Hm). split; [done|by left]. }
  rewrite !(bind_returned _ _ _ _ _ Hm).
  unfold handle, bind, await_logged.
  destruct (handler (with_ctx inputBase c) (world st2)) as [[result|e] w3]; simpl;
    [|split; [done|by left]].
  unfold settle, respond.
  destruct (instanceof_NextResponse result) eqn:Hresp; [split; [done|by left]|].
  destruct (json_encodable result) eqn:Henc.
  - rewrite !NextResponse_json_valid by done. split; [done|].
    right. by exists result.
  - unfold NextResponse_json. rewrite Henc. simpl. split; [done|by left].
Qed.

(** *** The keys of the cumulative context *)

Lemma merge_onto_app c0 (l1 l2 : list (gmap string JsVal)) :
  merge_onto c0 (l1 ++ l2) = merge_onto (merge_onto c0 l1) l2.
Proof. unfold merge_onto. apply foldl_app. Qed.

Lemma merge_onto_dom_start (outs : list (gmap string JsVal)) :
  forall c0, dom c0 ⊆ dom (merge_onto c0 outs).
Proof.
  induction outs as [|o outs IH]; intros c0; [done|].
  rewrite merge_onto_cons. etrans; [|apply IH]. rewrite dom_union. set_solver.
Qed.

Lemma merge_onto_dom_take c0 (outs : list (gmap string JsVal)) (j : nat) :
  dom (merge_onto c0 (take j outs)) ⊆ dom (merge_onto c0 outs).
Proof.
  rewrite <- (take_drop j outs) at 2. rewrite merge_onto_app.
  apply merge_onto_dom_start.
Qed.

Lemma merge_onto_dom_output c0 (outs : list (gmap string JsVal)) (j : nat) o :
  outs !! j = Some o -> dom o ⊆ dom (merge_onto c0 outs).
Proof.
  intros Hj. rewrite <- (take_drop_middle outs j o Hj).
  rewrite merge_onto_app, merge_onto_cons.
  etrans; [|apply merge_onto_dom_start]. rewrite dom_union. set_solver.
Qed.

(** X13. A loop of middleware that do not write to the [ctx] object they are
    handed never removes a key: when it completes, the final context has
    every key it started with, every key of the [ctx] any step was called
    with, and every key any step returned. *)
Theorem X13_steady_steps_keep_every_key (steps : list (Middleware W)) (i : nat)
    (inputBase : InputBase W) (c0 c : gmap string JsVal) st st' :
  Forall steady steps ->
  run_middlewares i steps inputBase c0 st = (Returned c, st') ->
  dom c0 ⊆ dom c /\
  exists evs : list (Event W),
    trace st' = trace st ++ evs /\
    forall (j : nat) (input : HandlerInput W) (r : Settled),
      EvMiddleware j input (Returned r) ∈ evs ->
      dom (ctx input) ⊆ dom c /\ dom (returned r) ⊆ dom c.
Proof.
  intros Hsteady Hrun.
  destruct (run_middlewares_spec steps i inputBase c0 st)
    as (rs & ws & wl & Hcompleted & _ & _ &
        [[_ Hspec]|(m & e & w' & _ & _ & Hspec)]);
    rewrite Hspec in Hrun; [|done].
  pose proof (accumulated_steady _ _ _ _ _ Hsteady Hcompleted) as Hacc.
  assert (accumulated c0 rs = merge_onto c0 (returned <$> rs)) as Hall.
  { specialize (Hacc (length rs)). by rewrite firstn_all in Hacc. }
  inversion Hrun; subst; clear Hrun. rewrite Hall.
  split; [apply merge_onto_dom_start|].
  eexists. split; [reflexivity|].
  intros j input r Hin. apply list_elem_of_lookup in Hin as [n Hn].
  unfold step_events in Hn. rewrite list_lookup_imap in Hn.
  destruct (rs !! n) as [r'|] eqn:Hr; inversion Hn; subst. simpl.
  split.
  - rewrite Hacc, fmap_take. apply merge_onto_dom_take.
  - apply (merge_onto_dom_output _ _ n). by rewrite list_lookup_fmap, Hr.
Qed.

(** *** Chains of configuration calls *)

Lemma chain_reads (cs : list (ConfigCall W)) :
  forall (h : Heap W) (this : loc) (f : Fields W (list (Middleware W))),
    read_this h this = Some f ->
    exists (b : loc) (h' : Heap W),
      chain cs this h = Some (b, h') /\
      read_this h' b = Some (foldl (fun g c => changed c g) f cs) /\
      (forall l g, read_this h l = Some g -> read_this h' l = Some g).
Proof.
  induction cs as [|c cs IH]; intros h this f Hread.
  - exists this, h. done.
  - destruct (call_spec c h this f Hread)
      as (new & h1 & Hcall & _ & Hnew & Hobj & Harr).
    destruct (IH h1 new (changed c f) Hnew) as (b & h' & Hchain & Hb & Hkeep).
    exists b, h'. simpl. rewrite Hcall. split; [done|]. split; [done|].
    intros l g Hl. apply Hkeep. by eapply read_this_preserved.
Qed.

Lemma changed_fold_middlewares (cs : list (ConfigCall W)) :
  forall f : Fields W (list (Middleware W)),
    middlewares (foldl (fun g c => changed c g) f cs) = middlewares f ++ used cs.
Proof.
  induction cs as [|c cs IH]; intros f; simpl; [by rewrite app_nil_r|].
  rewrite IH. destruct c; simpl; try done. by rewrite <- app_assoc.
Qed.

Lemma changed_fold_holds (c : ConfigCall W) (post : list (ConfigCall W)) :
  field_of c <> FMiddlewares ->
  (forall c', c' ∈ post -> field_of c' <> field_of c) ->
  forall g, holds c g -> holds c (foldl (fun g c => changed c g) g post).
Proof.
  intros Hc. induction post as [|c' post IH]; intros Hpost g Hg; [done|].
  simpl. apply IH.
  - intros c'' Hin. apply Hpost. by right.
  - assert (field_of c' <> field_of c) as Hne by (apply Hpost; by left).
    destruct c, c'; simpl in *; done.
Qed.

Lemma changed_fold_untouched (cs : list (ConfigCall W)) :
  forall f : Fields W (list (Middleware W)),
    ((forall c, c ∈ cs -> field_of c <> FContext) ->
     contextSchema (foldl (fun g c => changed c g) f cs) = contextSchema f) /\
    ((forall c, c ∈ cs -> field_of c <> FQuery) ->
     querySchema (foldl (fun g c => changed c g) f cs) = querySchema f) /\
    ((forall c, c ∈ cs -> field_of c <> FBody) ->
     bodySchema (foldl (fun g c => changed c g) f cs) = bodySchema f) /\
    ((forall c, c ∈ cs -> field_of c <> FFailed) ->
     failureHandler (foldl (fun g c => changed c g) f cs) = failureHandler f).
Proof.
  induction cs as [|c cs IH]; intros f; [done|]. simpl.
  destruct (IH (changed c f)) as (IH1 & IH2 & IH3 & IH4).
  repeat split; intros Hcs.
  - rewrite IH1 by (intros c' Hin; apply Hcs; by right).
    assert (field_of c <> FContext) by (apply Hcs; by left). by destruct c.
  - rewrite IH2 by (intros c' Hin; apply Hcs; by right).
    assert (field_of c <> FQuery) by (apply Hcs; by left). by destruct c.
  - rewrite IH3 by (intros c' Hin; apply Hcs; by right).
    assert (field_of c <> FBody) by (apply Hcs; by left). by destruct c.
  - rewrite IH4 by (intros c' Hin; apply Hcs; by right).
    assert (field_of c <> FFailed) by (apply Hcs; by left). by destruct c.
Qed.

(** X14. A chain of configuration calls on a builder of the heap always
    goes through; the builder it ends with holds the fields of the first
    builder changed by each call in turn, and every builder that could be
    read before the chain, the first one included, reads the same after it
    and gives the same route handlers. *)
Theorem X14_chains_keep_every_builder (cs : list (ConfigCall W)) (h : Heap W)
    (this : loc) (f : Fields W (list (Middleware W))) :
  read_this h this = Some f ->
  exists (b : loc) (h' : Heap W),
    chain cs this h = Some (b, h') /\
    read_this h' b = Some (foldl (fun g c => changed c g) f cs) /\
    (forall l g, read_this h l = Some g -> read_this h' l = Some g) /\
    (forall l g method handler,
        read_this h l = Some g ->
        route_handler h' l method handler
          = Some (createRouteHandler g method handler)).
Proof.
  intros Hread.
  destruct (chain_reads cs h this f Hread) as (b & h' & Hchain & Hb & Hkeep).
  exists b, h'. split; [done|]. split; [done|]. split; [done|].
  intros l g method handler Hl. unfold route_handler. by rewrite (Hkeep l g Hl).
Qed.

(** X15. What a chain of configuration calls leaves in the builder it ends
    with. The middleware are those of the first builder followed by the
    arguments of the [use] calls, in call order. For each of the four other
    fields the last call of its kind decides: its argument is what the field
    holds; and a field that no call of the chain names is the first
    builder's. *)
Theorem X15_insertion_order_and_last_call_wins (cs : list (ConfigCall W))
    (h h' : Heap W) (this b : loc) (f : Fields W (list (Middleware W))) :
  read_this h this = Some f ->
  chain cs this h = Some (b, h') ->
  exists g : Fields W (list (Middleware W)),
    read_this h' b = Some g /\
    middlewares g = middlewares f ++ used cs /\
    (forall (pre post : list (ConfigCall W)) (c : ConfigCall W),
        cs = pre ++ c :: post ->
        field_of c <> FMiddlewares ->
        (forall c', c' ∈ post -> field_of c' <> field_of c) ->
        holds c g) /\
    ((forall c, c ∈ cs -> field_of c <> FContext) ->
     contextSchema g = contextSchema f) /\
    ((forall c, c ∈ cs -> field_of c <> FQuery) ->
     querySchema g = querySchema f) /\
    ((forall c, c ∈ cs -> field_of c <> FBody) ->
     bodySchema g = bodySchema f) /\
    ((forall c, c ∈ cs -> field_of c <> FFailed) ->
     failureHandler g = failureHandler f).
Proof.
  intros Hread Hchain.
  destruct (chain_reads cs h this f Hread) as (b' & h'' & Hchain' & Hb & _).
  rewrite Hchain in Hchain'. inversion Hchain'; subst b' h''.
  eexists. split; [exact Hb|]. split; [apply changed_fold_middlewares|].
  split; [|apply changed_fold_untouched].
  intros pre post c -> Hc Hpost. rewrite foldl_app. simpl.
  apply changed_fold_holds; [done|done|]. by destruct c.
Qed.

(** X16. [createApiHandler] returns a builder that was not in the heap, with
    no schema, no middleware and no failure hook, and leaves every object,
    every array and every builder of the heap as it was. *)
Theorem X16_createApiHandler_is_fresh_and_unconfigured (h : Heap W) :
  exists (b : loc) (h' : Heap W),
    createApiHandler h = (b, h') /\
    objects h !! b = None /\
    read_this h' b = Some unconfigured /\
    (forall l o, objects h !! l = Some o -> objects h' !! l = Some o) /\
    (forall l a, arrays h !! l = Some a -> arrays h' !! l = Some a) /\
    (forall l g, read_this h l = Some g -> read_this h' l = Some g).
Proof.
  unfold createApiHandler.
  destruct (new_array_spec [] h) as (arr & Harr & Hfresh_arr). rewrite Harr.
  match goal with
  | |- context [new_ApiBuilder ?config ?h1] =>
      destruct (new_ApiBuilder_spec config h1) as (l & Hnew & Hfresh)
  end.
  rewrite Hnew. simpl in Hfresh.
  exists l. eexists. split; [reflexivity|]. split; [exact Hfresh|].
  assert (forall l' o, objects h !! l' = Some o ->
                       <[l := {| contextSchema := None; querySchema := None;
                                 bodySchema := None; middlewares := arr;
                                 failureHandler := None |}]> (objects h) !! l' = Some o)
    as Hobj.
  { intros l' o' Hl'. rewrite lookup_insert_ne; [exact Hl'|congruence]. }
  assert (forall l' a, arrays h !! l' = Some a ->
                       <[arr := []]> (arrays h) !! l' = Some a) as Harrs.
  { intros l' a' Hl'. rewrite lookup_insert_ne; [exact Hl'|congruence]. }
  split; [|split; [|split]].
  - unfold read_this. simpl. rewrite lookup_insert_eq. simpl.
    by rewrite lookup_insert_eq.
  - exact Hobj.
  - exact Harrs.
  - intros l' g Hl'. eapply read_this_preserved; [| |exact Hl']; simpl; done.
Qed.

End Coverage.

(** ** The further properties at the sample application *)

(** X2 at a DELETE whose context schema rejects the route parameters. *)
Lemma X2_witness :
  createRouteHandler (Sample.with_context (Sample.rejecting "context")) DELETE
      Sample.handler Sample.request Sample.routeCtx Sample.start
    = (Returned (api_error_response 400 "VALIDATION_ERROR" "Invalid input."
                   (Some [Sample.issue])),
       {| world := ["params"; "context"]; trace := [] |}).
Proof.
  apply (X2_context_rejection (Sample.with_context (Sample.rejecting "context"))
           DELETE Sample.handler Sample.request Sample.routeCtx Sample.start
           (Sample.rejecting "context") Sample.route_params ["params"]);
    reflexivity.
Defined.

(** X3 at a POST whose query schema rejects: [req.json()], the middleware,
    the handler and the hook are not reached. *)
Lemma X3_witness :
  createRouteHandler Sample.with_rejecting_query POST
      Sample.handler Sample.request Sample.routeCtx Sample.start
    = (Returned (api_error_response 400 "VALIDATION_ERROR" "Invalid input."
                   (Some [Sample.issue])),
       {| world := ["params"; "context"; "query"]; trace := [] |}).
Proof.
  apply (X3_query_rejection Sample.with_rejecting_query POST
           Sample.handler Sample.request Sample.routeCtx Sample.start
           (Sample.rejecting "query") Sample.route_params
           (VObj [("parsed", Sample.route_params)]) ["params"]
           {| world := ["params"; "context"]; trace := [] |});
    reflexivity.
Defined.

(** X4 at a POST on a builder with nothing configured. *)
Lemma X4_witness :
  base_context
    {| base_context := Sample.route_params; base_query := Sample.query_object;
       base_body := Sample.payload; base_req := Sample.request |}
    = Sample.route_params /\
  base_query
    {| base_context := Sample.route_params; base_query := Sample.query_object;
       base_body := Sample.payload; base_req := Sample.request |}
    = fromEntries (searchParams Sample.request) /\
  exists (validated : JsVal * JsVal) (st2 : State Sample.World),
    validate_context_query Sample.bare Sample.request Sample.routeCtx Sample.start
      = (Returned validated, st2) /\
    match json Sample.request (world st2) with
    | (Returned parsed, w4) => Sample.payload = parsed /\ ["params"; "json"] = w4
    | (Thrown _, w4) => Sample.payload = VUndefined /\ ["params"; "json"] = w4
    end.
Proof.
  destruct (X4_unconfigured_fields_carry_raw_input Sample.bare POST
              Sample.request Sample.routeCtx Sample.start
              {| base_context := Sample.route_params; base_query := Sample.query_object;
                 base_body := Sample.payload; base_req := Sample.request |}
              {| world := ["params"; "json"]; trace := [] |}
              Sample.route_params ["params"] eq_refl eq_refl)
    as (Hcontext & Hquery & Hbody).
  split; [exact (Hcontext eq_refl)|]. split; [exact (Hquery eq_refl)|].
  apply Hbody; [reflexivity|repeat constructor].
Defined.

(** X5 at a POST whose payload parses and whose body schema rejects it. *)
Lemma X5_witness :
  createRouteHandler (Sample.with_body (Sample.rejecting "body")) POST
      Sample.handler Sample.request Sample.routeCtx Sample.start
    = (Returned (api_error_response 400 "INVALID_BODY" "Invalid JSON body provided." None),
       {| world := ["params"; "json"; "body"]; trace := [] |}).
Proof.
  apply (X5_body_stage_errors_become_invalid_body
           (Sample.with_body (Sample.rejecting "body")) POST
           Sample.handler Sample.request Sample.routeCtx Sample.start
           (Sample.rejecting "body") Sample.route_params Sample.query_object
           {| world := ["params"]; trace := [] |} VUndefined).
  - repeat constructor.
  - reflexivity.
  - reflexivity.
  - right. exists Sample.payload, ["params"; "json"]. split; [reflexivity|].
    right. exists [Sample.issue]. reflexivity.
Defined.

(** X6 at a GET whose handler throws an [ApiError] of code 99. *)
Lemma X6_witness :
  exists e0 : JsVal,
    try_block Sample.bare GET (Sample.failing_handler (new_ApiError Sample.odd_code))
        Sample.request Sample.routeCtx Sample.start
      = (Thrown e0,
         {| world := ["params"; "handler"];
            trace := [EvHandler (with_ctx Sample.unvalidated_input ∅)
                                (Thrown (new_ApiError Sample.odd_code))] |}) /\
    ((e0 = range_error /\ isNextJsInternalError range_error = true) \/
     (exists code type message issues extra,
        e0 = VApiError code type message issues extra /\
        isNextJsInternalError e0 = false /\
        valid_status code = false /\
        (range_error = type_error \/ range_error = range_error))).
Proof.
  apply (X6_what_the_route_handler_throws Sample.bare GET
           (Sample.failing_handler (new_ApiError Sample.odd_code))
           Sample.request Sample.routeCtx Sample.start).
  reflexivity.
Defined.

(** X7 at a GET whose handler throws a plain error, and at one whose handler
    throws an [ApiError] of code 401. *)
Lemma X7_witness :
  (exists (status : Z) (payload : JsVal) (message type : string)
          (st' : State Sample.World),
     createRouteHandler Sample.bare GET (Sample.failing_handler Sample.plain_error)
         Sample.request Sample.routeCtx Sample.start
       = (Returned (VNextResponse status payload), st') /\
     get_prop payload "message" = Some (VStr message) /\
     get_prop payload "type" = Some (VStr type) /\
     (forall code type' message' issues extra,
        Sample.plain_error = VApiError code type' message' issues extra ->
        status = code /\ message = message' /\ type = type') /\
     (instanceof_ApiError Sample.plain_error = false ->
        status = 500 /\
        message = "An internal server error occurred." /\
        type = "INTERNAL_SERVER_ERROR" /\
        get_prop payload "issues" = None)) /\
  (exists (status : Z) (payload : JsVal) (message type : string)
          (st' : State Sample.World),
     createRouteHandler Sample.bare GET (Sample.failing_handler Sample.unauthorized)
         Sample.request Sample.routeCtx Sample.start
       = (Returned (VNextResponse status payload), st') /\
     get_prop payload "message" = Some (VStr message) /\
     get_prop payload "type" = Some (VStr type) /\
     (forall code type' message' issues extra,
        Sample.unauthorized = VApiError code type' message' issues extra ->
        status = code /\ message = message' /\ type = type') /\
     (instanceof_ApiError Sample.unauthorized = false ->
        status = 500 /\
        message = "An internal server error occurred." /\
        type = "INTERNAL_SERVER_ERROR" /\
        get_prop payload "issues" = None)).
Proof.
  split.
  - apply (X7_failure_response_shape Sample.bare GET
             (Sample.failing_handler Sample.plain_error)
             Sample.request Sample.routeCtx Sample.start Sample.plain_error
             {| world := ["params"; "handler"];
                trace := [EvHandler (with_ctx Sample.unvalidated_input ∅)
                                    (Thrown Sample.plain_error)] |});
      [reflexivity | reflexivity | discriminate].
  - apply (X7_failure_response_shape Sample.bare GET
             (Sample.failing_handler Sample.unauthorized)
             Sample.request Sample.routeCtx Sample.start Sample.unauthorized
             {| world := ["params"; "handler"];
                trace := [EvHandler (with_ctx Sample.unvalidated_input ∅)
                                    (Thrown Sample.unauthorized)] |});
      [reflexivity | reflexivity |].
    intros code type message issues extra [= <- _ _ _ _]. reflexivity.
Defined.

(** X8 at a GET, with a hook installed, whose handler throws
    [new ApiError({ message: "Out of stock." })]: status 500, the message kept,
    the hook not called. *)
Lemma X8_witness :
  isNextJsInternalError (new_ApiError Sample.out_of_stock) = false /\
  createRouteHandler (Sample.with_hook Sample.hook) GET
      (Sample.failing_handler (new_ApiError Sample.out_of_stock))
      Sample.request Sample.routeCtx Sample.start
    = (Returned (api_error_response 500 "INTERNAL_SERVER_ERROR" "Out of stock." None),
       {| world := ["params"; "handler"];
          trace := [EvHandler (with_ctx Sample.unvalidated_input ∅)
                              (Thrown (new_ApiError Sample.out_of_stock))] |}).
Proof.
  apply (X8_constructed_api_error_is_answered (Sample.with_hook Sample.hook) GET
           (Sample.failing_handler (new_ApiError Sample.out_of_stock))
           Sample.request Sample.routeCtx Sample.start Sample.out_of_stock);
    reflexivity.
Defined.

(** X9 at handlers that throw a string, [null], and an object whose
    [digest] is a number. *)
Lemma X9_witness :
  fst (createRouteHandler Sample.bare GET (Sample.failing_handler (VStr "oops"))
         Sample.request Sample.routeCtx Sample.start)
    = Returned internal_error_response /\
  fst (createRouteHandler Sample.bare GET (Sample.failing_handler VNull)
         Sample.request Sample.routeCtx Sample.start)
    = Returned internal_error_response /\
  fst (createRouteHandler Sample.bare GET (Sample.failing_handler Sample.numbered_digest)
         Sample.request Sample.routeCtx Sample.start)
    = Returned internal_error_response.
Proof.
  split; [|split].
  - eapply (X9_other_thrown_values_are_internal_errors Sample.bare GET
              (Sample.failing_handler (VStr "oops")));
      [reflexivity | reflexivity | discriminate].
  - eapply (X9_other_thrown_values_are_internal_errors Sample.bare GET
              (Sample.failing_handler VNull));
      [reflexivity | reflexivity | discriminate].
  - eapply (X9_other_thrown_values_are_internal_errors Sample.bare GET
              (Sample.failing_handler Sample.numbered_digest));
      [reflexivity | reflexivity | discriminate].
Defined.

(** X11 at a builder with a body schema and one without. *)
Lemma X11_witness :
  ApiBuilder.get (Sample.with_body (Sample.rejecting "body")) Sample.handler
      Sample.request Sample.routeCtx Sample.start
    = ApiBuilder.get Sample.bare Sample.handler
        Sample.request Sample.routeCtx Sample.start /\
  ApiBuilder.delete (Sample.with_body (Sample.rejecting "body")) Sample.handler
      Sample.request Sample.routeCtx Sample.start
    = ApiBuilder.delete Sample.bare Sample.handler
        Sample.request Sample.routeCtx Sample.start.
Proof.
  apply (X11_get_and_delete_ignore_the_body_schema
           (Sample.with_body (Sample.rejecting "body")) Sample.bare);
    reflexivity.
Defined.

(** X13 at the two steps [auth] and [promote]. *)
Lemma X13_witness :
  dom (∅ : gmap string JsVal)
    ⊆ dom ({[ "user" := VStr "ann"; "role" := VStr "admin" ]} : gmap string JsVal) /\
  exists evs : list (Event Sample.World),
    [EvMiddleware 0 (with_ctx Sample.unvalidated_input ∅)
       (Returned {| returned := {[ "user" := VStr "ann"; "role" := VStr "guest" ]};
                    ctx_after := ∅ |});
     EvMiddleware 1
       (with_ctx Sample.unvalidated_input
          {[ "user" := VStr "ann"; "role" := VStr "guest" ]})
       (Returned {| returned := {[ "role" := VStr "admin" ]};
                    ctx_after := {[ "user" := VStr "ann"; "role" := VStr "guest" ]} |})]
      = [] ++ evs /\
    forall (j : nat) (input : HandlerInput Sample.World) (r : Settled),
      EvMiddleware j input (Returned r) ∈ evs ->
      dom (ctx input)
        ⊆ dom ({[ "user" := VStr "ann"; "role" := VStr "admin" ]} : gmap string JsVal) /\
      dom (returned r)
        ⊆ dom ({[ "user" := VStr "ann"; "role" := VStr "admin" ]} : gmap string JsVal).
Proof.
  apply (X13_steady_steps_keep_every_key [Sample.auth; Sample.promote] 0
           Sample.unvalidated_input ∅
           {[ "user" := VStr "ann"; "role" := VStr "admin" ]}
           {| world := ["params"]; trace := [] |}
           {| world := ["params"; "auth"; "promote"];
              trace :=
                [EvMiddleware 0 (with_ctx Sample.unvalidated_input ∅)
                   (Returned {| returned :=
                                  {[ "user" := VStr "ann"; "role" := VStr "guest" ]};
                                ctx_after := ∅ |});
                 EvMiddleware 1
                   (with_ctx Sample.unvalidated_input
                      {[ "user" := VStr "ann"; "role" := VStr "guest" ]})
                   (Returned {| returned := {[ "role" := VStr "admin" ]};
                                ctx_after :=
                                  {[ "user" := VStr "ann";
                                     "role" := VStr "guest" ]} |})] |}).
  - repeat constructor; [apply step_steady | apply promote_steady].
  - reflexivity.
Defined.

(** X14 at the chain [Sample.calls] on the builder of [createApiHandler()]. *)
Lemma X14_witness :
  exists (b : loc) (h' : Heap Sample.World),
    chain Sample.calls Sample.first_builder Sample.first_heap = Some (b, h') /\
    read_this h' b
      = Some (foldl (fun g c => changed c g) Sample.bare Sample.calls) /\
    (forall l g, read_this Sample.first_heap l = Some g -> read_this h' l = Some g) /\
    (forall l g method handler,
        read_this Sample.first_heap l = Some g ->
        route_handler h' l method handler
          = Some (createRouteHandler g method handler)).
Proof.
  apply (X14_chains_keep_every_builder Sample.calls Sample.first_heap
           Sample.first_builder Sample.bare).
  reflexivity.
Defined.

(** X15 at the same chain: the middleware are [auth] then [promote], the
    context schema is the one of the last [context] call, the hook is the one
    installed, and the query and body schemas are still absent. *)
Lemma X15_witness :
  exists (b : loc) (h' : Heap Sample.World) (g : Fields Sample.World (list (Middleware Sample.World))),
    chain Sample.calls Sample.first_builder Sample.first_heap = Some (b, h') /\
    read_this h' b = Some g /\
    middlewares g = [Sample.auth; Sample.promote] /\
    contextSchema g = Some (Sample.accepting "B") /\
    failureHandler g = Some Sample.hook /\
    querySchema g = None /\
    bodySchema g = None.
Proof.
  destruct (chain Sample.calls Sample.first_builder Sample.first_heap)
    as [[b h']|] eqn:Hchain; [|discriminate Hchain].
  destruct (X15_insertion_order_and_last_call_wins Sample.calls
              Sample.first_heap h' Sample.first_builder b Sample.bare
              eq_refl Hchain)
    as (g & Hg & Hsteps & Hlast & _ & Hquery & Hbody & _).
  exists b, h', g. split; [reflexivity|]. split; [exact Hg|].
  split; [exact Hsteps|]. split; [|split; [|split]].
  - apply (Hlast [CallUse Sample.auth; CallContext (Sample.accepting "A");
                  CallFailed Sample.hook; CallUse Sample.promote]
                 [] (CallContext (Sample.accepting "B")));
      [reflexivity | discriminate | intros c' Hin; inversion Hin].
  - apply (Hlast [CallUse Sample.auth; CallContext (Sample.accepting "A")]
                 [CallUse Sample.promote; CallContext (Sample.accepting "B")]
                 (CallFailed Sample.hook));
      [reflexivity | discriminate |].
    intros c' Hin. repeat (apply elem_of_cons in Hin as [->|Hin]; [discriminate|]).
    inversion Hin.
  - apply Hquery. intros c Hin.
    repeat (apply elem_of_cons in Hin as [->|Hin]; [discriminate|]).
    inversion Hin.
  - apply Hbody. intros c Hin.
    repeat (apply elem_of_cons in Hin as [->|Hin]; [discriminate|]).
    inversion Hin.
Defined.
